(** * Pumphouse temperature node: a shallow embedding of Pumphouse.ino

    The sketch is a single-threaded Arduino program.  Each call of [loop]
    supervises the mesh connection, services at most one pending TCP client
    and feeds the watchdog.  This file embeds [saveTemperature] and [loop]
    as executable functions and proves properties of the request
    classifier, the response writer, the connectivity supervisor and the
    watchdog discipline.

    Conventions.
    - Bytes are [ascii]; a byte string is a [list ascii]; [lit] turns a
      string literal into bytes.
    - The request buffer [buf] is a 400-byte array of automatic storage.
      It is modelled as a [list ascii] whose initial contents are an input
      of the model ([stale]): the sketch never initialises it and never
      writes a terminator after the bytes it reads.
    - A pointer into [buf] is an offset ([nat]); a possibly-null pointer is
      an [option nat].
    - Every array access that leaves its array, and every use of a null
      pointer, yields [Undefined]: the C program has no defined behaviour
      there.
    - [float] values are IEEE 754 binary32 numbers ([spec_float] with
      precision 24 and maximal exponent 128), the format of [float] and
      [double] on the AVR target.
    - The effects on the outside world (LED, radio, serial line, client,
      watchdog) are recorded, in order, in a trace of events. *)

From Stdlib Require Import ZArith Lia Ascii String DecimalString.
From Stdlib Require Import Floats.SpecFloat.
From stdpp Require Import base list.

(** ** Bytes and string literals *)

#[export] Instance ascii_eq_dec : EqDecision ascii := Ascii.ascii_dec.

Definition NUL : ascii := "000"%char.
Definition SP : ascii := " "%char.

Definition lit (s : string) : list ascii := list_ascii_of_string s.

Definition CRLF : list ascii := ["013"%char; "010"%char].

(** ** Results of C code that may leave defined behaviour *)

Inductive fault : Type :=
| OutOfBounds   (* an array is read or written outside its bounds *)
| NullPointer.  (* a null pointer is passed where a string is expected *)

Inductive result (A : Type) : Type :=
| Ok (a : A)
| Undefined (f : fault).
Arguments Ok {A} a.
Arguments Undefined {A} f.

#[export] Instance result_ret : MRet result := fun A a => Ok a.
#[export] Instance result_bind : MBind result := fun A B k m =>
  match m with
  | Ok a => k a
  | Undefined f => Undefined f
  end.

Definition defined {A} (r : result A) : bool :=
  match r with Ok _ => true | Undefined _ => false end.

(** ** Compile-time constants and tables (lines 16-60) *)

Definition HTTP_BUFFER_SIZE : Z := 400.
Definition MESH_CHECK_INTERVAL : Z := 15000.
Definition LED_PIN : Z := 4.

Definition DeviceAddress : Type := list Z.

Definition tempSensors : list DeviceAddress :=
  [ [0x28; 0xFF; 0xDD; 0x96; 0x36; 0x16; 0x03; 0xB9];
    [0x28; 0xB3; 0x8E; 0x4A; 0x07; 0x00; 0x00; 0xA8];
    [0x28; 0x0A; 0x62; 0xB8; 0x07; 0x00; 0x00; 0xB4] ]%Z.

Definition tempSensorNames : list (list ascii) :=
  [ lit "Lake Water: "; lit "Outside Air: "; lit "Intake Pipe: " ].

Inductive error : Type :=
| ERR_UNKNOWN
| ERR_BUF_OVERFLOW
| ERROR_NOT_TEMP_REQ
| ERROR_NOT_GET_REQ.

(** ** The C string functions used by [loop]

    [strstr], [strsep] and [strcmp] come from avr-libc.  They are modelled
    as left-to-right scans over the array they are handed; the scan stops
    at the first byte that decides the result, and a scan that runs off the
    end of the array is [Undefined OutOfBounds]. *)

(** Does [needle] start the byte sequence [l]?  The comparison stops at the
    first mismatch. *)
Fixpoint match_at (needle l : list ascii) : result bool :=
  match needle with
  | [] => Ok true
  | n :: ns =>
      match l with
      | [] => Undefined OutOfBounds
      | c :: cs => if (c =? n)%char then match_at ns cs else Ok false
      end
  end.

(** [strstr_from l needle p]: [l] is the array from offset [p] on. *)
Fixpoint strstr_from (l needle : list ascii) (p : nat) : result (option nat) :=
  match l with
  | [] => Undefined OutOfBounds
  | c :: l' =>
      if (c =? NUL)%char then Ok None
      else
        m ← match_at needle l;
        if m : bool then Ok (Some p) else strstr_from l' needle (S p)
  end.

Definition strstr (buf needle : list ascii) : result (option nat) :=
  strstr_from buf needle 0.

(** First delimiter or terminator at or after offset [q]; the flag tells
    which of the two was found. *)
Fixpoint find_delim (l : list ascii) (delim : ascii) (q : nat)
  : result (nat * bool) :=
  match l with
  | [] => Undefined OutOfBounds
  | c :: l' =>
      if (c =? NUL)%char then Ok (q, false)
      else if (c =? delim)%char then Ok (q, true)
      else find_delim l' delim (S q)
  end.

(** [strsep(&stringp, delim)] returns the array after the call, the new
    value of [stringp] and the returned token pointer. *)
Definition strsep (buf : list ascii) (stringp : option nat) (delim : ascii)
  : result (list ascii * option nat * option nat) :=
  match stringp with
  | None => Ok (buf, None, None)
  | Some p =>
      '(q, hit) ← find_delim (drop p buf) delim p;
      if hit : bool
      then Ok (<[q := NUL]> buf, Some (S q), Some p)
      else Ok (buf, None, Some p)
  end.

(** Is the string at the head of [l] equal to the literal [s]?  ([s] holds
    no terminator; the literal's own terminator is the [[]] case.) *)
Fixpoint strcmp_eq (l s : list ascii) : result bool :=
  match l with
  | [] => Undefined OutOfBounds
  | c :: l' =>
      match s with
      | [] => Ok (c =? NUL)%char
      | x :: s' => if (c =? x)%char then strcmp_eq l' s' else Ok false
      end
  end.

(** [strcmp(s1, lit) == 0] for a pointer [s1] into [buf]. *)
Definition strcmp (buf : list ascii) (s1 : option nat) (s : list ascii)
  : result bool :=
  match s1 with
  | None => Undefined NullPointer
  | Some a => strcmp_eq (drop a buf) s
  end.

(** ** Reading the request (lines 202-226) *)

Record request_state : Type := {
  rs_pending : list ascii;   (* bytes the client still holds *)
  rs_buf : list ascii;
  rs_idx : Z;
  rs_evalInput : bool;
  rs_error_type : error
}.

(** One turn of the [while] per pending byte.  [dataToRead] is initialised
    with the value of the comparison [client.waitAvailable() > 0], hence
    with 1 whenever the body runs, and [client.read] then takes one byte. *)
Fixpoint read_request (pending buf : list ascii) (idx : Z) : request_state :=
  match pending with
  | [] =>
      {| rs_pending := []; rs_buf := buf; rs_idx := idx;
         rs_evalInput := true; rs_error_type := ERR_UNKNOWN |}
  | b :: rest =>
      let dataToRead := 1%Z in
      if (dataToRead <=? HTTP_BUFFER_SIZE - idx)%Z
      then read_request rest (<[Z.to_nat idx := b]> buf) (idx + 1)
      else
        {| rs_pending := pending; rs_buf := buf; rs_idx := idx;
           rs_evalInput := false; rs_error_type := ERR_BUF_OVERFLOW |}
  end.

(** ** Classifying the request (lines 228-249) *)

Definition parse_request (buf : list ascii) : result (bool * error) :=
  gettype ← strstr buf (lit "GET");
  match gettype with
  | Some _ =>
      '(buf1, gettype1, _) ← strsep buf gettype SP;
      '(buf2, _, addr) ← strsep buf1 gettype1 SP;
      same ← strcmp buf2 addr (lit "/temp");
      if same : bool then Ok (true, ERR_UNKNOWN)
      else Ok (false, ERROR_NOT_TEMP_REQ)
  | None => Ok (false, ERROR_NOT_GET_REQ)
  end.

(** [transmit] and [error_type] after lines 202-249, for a client that
    delivers [pending] while [buf] holds [stale] on entry. *)
Definition classify (stale pending : list ascii) : result (bool * error) :=
  let rs := read_request pending stale 0 in
  if rs_evalInput rs then parse_request (rs_buf rs)
  else Ok (false, rs_error_type rs).

(** The five request outcomes of the specification, as the pair
    ([transmit], [error_type]) encodes them. *)
Inductive RequestOutcome : Type :=
| Serve | BufferOverflow | NotGetMethod | NotTempPath | Unknown.

Definition outcome_of (c : bool * error) : RequestOutcome :=
  match c with
  | (true, _) => Serve
  | (false, ERR_BUF_OVERFLOW) => BufferOverflow
  | (false, ERROR_NOT_GET_REQ) => NotGetMethod
  | (false, ERROR_NOT_TEMP_REQ) => NotTempPath
  | (false, ERR_UNKNOWN) => Unknown
  end.

(** ** Floating-point readings *)

Definition float : Type := spec_float.
Definition prec : Z := 24.
Definition emax : Z := 128.

(** The binary32 number nearest to [m * 2^e]. *)
Definition float_of (m e : Z) : float := binary_normalize prec emax m e false.

Definition fsub (x y : float) : float := SFsub prec emax x y.

(** The literal [0.9375] of line 168, that is 15/16. *)
Definition correction : float := float_of 15 (-4).

Definition is_finite (x : float) : bool :=
  match x with
  | S754_zero _ | S754_finite _ _ _ => true
  | S754_infinity _ | S754_nan => false
  end.

(** ** [dtostrf(val, 0, 5, fltStr)] (line 272)

    With width 0 and precision 5, avr-libc prints the sign, the integer
    part, a point and 5 digits, the magnitude being rounded to the nearest
    multiple of 10^-5; the special values print as [INF] and [NAN].  The
    destination [fltStr] has 10 bytes and also receives the terminator. *)

Definition minus (s : bool) : list ascii := if s then lit "-" else [].

Definition digit (d : Z) : ascii := ascii_of_N (Z.to_N (48 + d mod 10)).

Definition decimal (n : Z) : list ascii :=
  list_ascii_of_string (NilZero.string_of_uint (N.to_uint (Z.to_N n))).

(** The magnitude [m * 2^e] in units of 10^-5, rounded half up. *)
Definition scaled5 (m : positive) (e : Z) : Z :=
  let n := (Z.pos m * 100000)%Z in
  if (0 <=? e)%Z then (n * 2 ^ e)%Z
  else ((n + 2 ^ (- e - 1)) / 2 ^ (- e))%Z.

Definition fraction5 (q : Z) : list ascii :=
  [ digit (q / 10000); digit (q / 1000); digit (q / 100);
    digit (q / 10); digit q ]%Z.

Definition fixed5 (q : Z) : list ascii :=
  decimal (q / 100000) ++ lit "." ++ fraction5 (q mod 100000).

Definition dtostrf5 (val : float) : list ascii :=
  match val with
  | S754_nan => lit "NAN"
  | S754_infinity s => minus s ++ lit "INF"
  | S754_zero s => minus s ++ fixed5 0
  | S754_finite s m e => minus s ++ fixed5 (scaled5 m e)
  end.

Definition FLTSTR_SIZE : Z := 10.

Definition dtostrf (val : float) : result (list ascii) :=
  let s := dtostrf5 val in
  if (Z.of_nat (length s) <? FLTSTR_SIZE)%Z then Ok s
  else Undefined OutOfBounds.

(** ** Array access with the bounds of the C arrays *)

Definition index {A} (a : list A) (i : nat) : result A :=
  match a !! i with
  | Some x => Ok x
  | None => Undefined OutOfBounds
  end.

Definition store {A} (a : list A) (i : nat) (x : A) : result (list A) :=
  if (i <? length a)%nat then Ok (<[i := x]> a) else Undefined OutOfBounds.

(** [strcpy]/[strcat] into the 400-byte [buf]; the argument is the string
    already in [buf], the terminator needs one more byte. *)
Definition strcat (dst src : list ascii) : result (list ascii) :=
  if (Z.of_nat (length (dst ++ src)) <? HTTP_BUFFER_SIZE)%Z
  then Ok (dst ++ src)
  else Undefined OutOfBounds.

(** ** The world outside the sketch *)

Inductive event : Type :=
| CheckConnection (ok : bool)        (* mesh.checkConnection() returned ok *)
| DigitalWrite (pin : Z) (high : bool)
| RenewAddress (address : Z)         (* mesh.renewAddress() returned address *)
| ClientFlush
| RequestTemperatures                (* sensors.requestTemperatures() *)
| SerialPrint (msg : list ascii)
| SerialPrintln (msg : list ascii)
| ClientWrite (bytes : list ascii)
| ClientStop
| WdtReset.

(** What one call of [loop] observes of its surroundings. *)
Record environment : Type := {
  millis_test : Z;                    (* millis() at line 186 *)
  millis_set : Z;                     (* millis() at line 187 *)
  checkConnection : bool;             (* mesh.checkConnection() *)
  renewAddress : Z;                   (* mesh.renewAddress(), were it called *)
  available : option (list ascii);    (* server.available(): the inbound
                                         bytes of the pending client *)
  stale : list ascii;                 (* what [buf] holds on entry *)
  isConnected : DeviceAddress → bool; (* sensors.isConnected *)
  getTempC : DeviceAddress → float;   (* sensors.getTempC *)
  failureDetected : bool              (* radio.failureDetected at line 313 *)
}.

(** The globals of the sketch, and the events so far, oldest first. *)
Record sketch : Type := {
  numberOfOneWireDevices : nat;
  temperatureReadings : list float;
  mesh_timer : Z;
  trace : list event
}.

Definition emit (e : event) (w : sketch) : sketch :=
  {| numberOfOneWireDevices := numberOfOneWireDevices w;
     temperatureReadings := temperatureReadings w;
     mesh_timer := mesh_timer w;
     trace := trace w ++ [e] |}.

Definition set_readings (r : list float) (w : sketch) : sketch :=
  {| numberOfOneWireDevices := numberOfOneWireDevices w;
     temperatureReadings := r;
     mesh_timer := mesh_timer w;
     trace := trace w |}.

Definition set_mesh_timer (t : Z) (w : sketch) : sketch :=
  {| numberOfOneWireDevices := numberOfOneWireDevices w;
     temperatureReadings := temperatureReadings w;
     mesh_timer := t;
     trace := trace w |}.

(** ** [saveTemperature] (lines 161-180) *)

Definition sensor_error : list ascii :=
  lit "Error: unable to communicate with sensor ".

Definition saveTemperature (env : environment) (sensorId : nat) (w : sketch)
  : result sketch :=
  addr ← index tempSensors sensorId;
  if isConnected env addr then
    let tempC := getTempC env addr in
    let tempC := if (sensorId =? 2)%nat then fsub tempC correction else tempC in
    r ← store (temperatureReadings w) sensorId tempC;
    Ok (set_readings r w)
  else
    let w := emit (SerialPrint sensor_error) w in
    name ← index tempSensorNames sensorId;
    Ok (emit (SerialPrintln name) w).

(** ** Writing the response (lines 252-309) *)

Definition header_200 : list ascii :=
  lit "HTTP/1.1 200 OK " ++ CRLF ++
  lit "Content-Type: text/plain " ++ CRLF ++
  lit "Connection: close " ++ CRLF ++
  lit "Refresh: 5 " ++ CRLF ++ CRLF.

Definition response_431 : list ascii :=
  lit "HTTP/1.1 431 Request Header Fields Too Large " ++ CRLF ++ CRLF.
Definition response_405 : list ascii :=
  lit "HTTP/1.1 405 Method Not Allowed " ++ CRLF ++ CRLF.
Definition response_501 : list ascii :=
  lit "HTTP/1.1 501 Not Implemented " ++ CRLF ++ CRLF ++
  lit "Only temperature(/temp) requests supported." ++ CRLF.
Definition response_520 : list ascii :=
  lit "HTTP/1.1 520 Unknown Error " ++ CRLF ++ CRLF.

(** The [for] of lines 263-281: [n] turns are left, the next index is [i]. *)
Fixpoint sensor_loop (env : environment) (n i : nat) (w : sketch)
  (buf : list ascii) : result (sketch * list ascii) :=
  match n with
  | O => Ok (w, buf)
  | S n' =>
      w1 ← saveTemperature env i w;
      name ← index tempSensorNames i;
      buf1 ← strcat buf name;
      reading ← index (temperatureReadings w1) i;
      fltStr ← dtostrf reading;
      buf2 ← strcat buf1 fltStr;
      buf3 ← (if (Z.of_nat i <? Z.of_nat (numberOfOneWireDevices w1) - 1)%Z
              then strcat buf2 (lit "|") else Ok buf2);
      sensor_loop env n' (S i) w1 buf3
  end.

Definition error_response (error_type : error) : list ascii :=
  match error_type with
  | ERR_BUF_OVERFLOW => response_431
  | ERROR_NOT_GET_REQ => response_405
  | ERROR_NOT_TEMP_REQ => response_501
  | ERR_UNKNOWN => response_520
  end.

Definition respond (env : environment) (c : bool * error) (w : sketch)
  : result sketch :=
  let '(transmit, error_type) := c in
  if transmit : bool then
    let w := emit RequestTemperatures w in
    let w := emit (SerialPrintln
                     (lit "Temperature request received; responding...")) w in
    buf ← strcat [] header_200;
    '(w, buf) ← sensor_loop env (numberOfOneWireDevices w) 0 w buf;
    buf ← strcat buf CRLF;
    Ok (emit ClientStop (emit (ClientWrite buf) w))
  else
    Ok (emit ClientStop (emit (ClientWrite (error_response error_type)) w)).

(** Servicing one client (lines 200-310). *)
Definition service (env : environment) (pending : list ascii) (w : sketch)
  : result sketch :=
  let w := emit ClientFlush w in
  c ← classify (stale env) pending;
  respond env c w.

(** ** The connectivity check (lines 186-197) *)

(** Subtraction of two [uint32_t] values. *)
Definition sub32 (a b : Z) : Z := ((a - b) mod 2 ^ 32)%Z.

Definition mesh_due (env : environment) (w : sketch) : bool :=
  (MESH_CHECK_INTERVAL <? sub32 (millis_test env) (mesh_timer w))%Z.

Definition mesh_check (env : environment) (w : sketch) : sketch :=
  if mesh_due env w then
    let w := set_mesh_timer (millis_set env) w in
    let w := emit (CheckConnection (checkConnection env)) w in
    if negb (checkConnection env) then
      let w := emit (DigitalWrite LED_PIN false) w in
      let w := emit (RenewAddress (renewAddress env)) w in
      emit (DigitalWrite LED_PIN true) w
    else
      emit (DigitalWrite LED_PIN true) w
  else w.

(** ** [loop] (lines 183-315) *)

Definition loop (env : environment) (w : sketch) : result sketch :=
  let w := mesh_check env w in
  w ← match available env with
      | Some pending => service env pending w
      | None => Ok w
      end;
  Ok (if negb (failureDetected env) then emit WdtReset w else w).

(** ** Vocabulary of the statements *)

(** The world [w] after the events [evs], the globals unchanged. *)
Definition after (w : sketch) (evs : list event) : sketch :=
  {| numberOfOneWireDevices := numberOfOneWireDevices w;
     temperatureReadings := temperatureReadings w;
     mesh_timer := mesh_timer w;
     trace := trace w ++ evs |}.

(** The level of the connectivity LED after a trace, [init] before it. *)
Definition led_level (init : bool) (tr : list event) : bool :=
  foldl (fun level e =>
           match e with
           | DigitalWrite pin high => if (pin =? LED_PIN)%Z then high else level
           | _ => level
           end) init tr.

Definition is_probe (e : event) : bool :=
  match e with CheckConnection _ => true | _ => false end.

Definition is_wdt_reset (e : event) : bool :=
  match e with WdtReset => true | _ => false end.

Definition is_refresh (e : event) : bool :=
  match e with RequestTemperatures => true | _ => false end.

Definition count (p : event → bool) (tr : list event) : nat :=
  length (filter (fun e => p e = true) tr).

(** [w'] is [w] after more events, none of them a watchdog reset. *)
Definition quiet (w w' : sketch) : Prop :=
  ∃ evs, trace w' = trace w ++ evs ∧ count is_wdt_reset evs = 0%nat.

(** A buffer of 400 zero bytes, and a request line as a client sends it. *)
Definition zeros : list ascii := replicate 400 NUL.

Definition request_line (method path : list ascii) : list ascii :=
  method ++ [SP] ++ path ++ [SP] ++ lit "HTTP/1.1" ++ CRLF ++ CRLF.

(** A bus on which every known sensor answers, with the readings 5.0, -1.0
    and 20.3125 degrees. *)
Definition sample_temperature (a : DeviceAddress) : float :=
  if decide (tempSensors !! 0%nat = Some a) then float_of 5 0
  else if decide (tempSensors !! 1%nat = Some a) then SFopp (float_of 1 0)
  else float_of 325 (-4).

Definition sample_env (request : option (list ascii)) : environment :=
  {| millis_test := 20000; millis_set := 20001;
     checkConnection := false; renewAddress := 20;
     available := request; stale := zeros;
     isConnected := fun _ => true; getTempC := sample_temperature;
     failureDetected := false |}.

(** The globals when [setup] returns, [n] devices having been found. *)
Definition booted (n : nat) : sketch :=
  {| numberOfOneWireDevices := n;
     temperatureReadings := replicate 3 (S754_zero false);
     mesh_timer := 0;
     trace := [] |}.

(** A clock that has wrapped: [mesh_timer] was set 100 ms before the wrap
    and the clock now reads 14900, so that 15000 ms have elapsed. *)
Definition wrapped_env : environment :=
  {| millis_test := 14900; millis_set := 14900;
     checkConnection := true; renewAddress := 0;
     available := None; stale := zeros;
     isConnected := fun _ => true; getTempC := sample_temperature;
     failureDetected := false |}.

Definition wrapped_world : sketch := set_mesh_timer (2 ^ 32 - 100) (booted 3).

(** A reading of [k] sixteenths of a degree, the resolution of the sensors
    at 12 bits. *)
Definition sixteenths (k : Z) : float := float_of k (-4).

#[export] Instance float_eq_dec : EqDecision spec_float.
Proof. solve_decision. Defined.

(** The value stored for sensor [i] when it delivers [raw]. *)
Definition calibrated (i : nat) (raw : float) : float :=
  if decide (i = 2%nat) then fsub raw correction else raw.

(** The reading of sensor [i] after one attempt, [old] being stored before. *)
Definition refreshed (env : environment) (i : nat) (old : float) : float :=
  match tempSensors !! i with
  | Some a => if isConnected env a then calibrated i (getTempC env a) else old
  | None => old
  end.

Definition refresh_one (env : environment) (r : list float) (i : nat)
  : list float :=
  match r !! i with
  | Some old => <[i := refreshed env i old]> r
  | None => r
  end.

(** The stored readings after the sensors [i], ..., [i + n - 1] have been
    attempted in turn. *)
Definition refresh_all (env : environment) (i n : nat) (r : list float)
  : list float :=
  foldl (refresh_one env) r (seq i n).

(** What the serial line shows for sensor [i] during a refresh. *)
Definition diagnostics (env : environment) (i : nat) : list event :=
  match tempSensors !! i, tempSensorNames !! i with
  | Some a, Some name =>
      if isConnected env a then []
      else [SerialPrint sensor_error; SerialPrintln name]
  | _, _ => []
  end.

(** [parts] with [sep] between any two neighbours. *)
Fixpoint join (sep : list ascii) (parts : list (list ascii)) : list ascii :=
  match parts with
  | [] => []
  | p :: ps =>
      match ps with
      | [] => p
      | _ :: _ => p ++ sep ++ join sep ps
      end
  end.

(** The label of sensor [i] followed by its reading in [readings]. *)
Definition entry (readings : list float) (i : nat) : list ascii :=
  match tempSensorNames !! i, readings !! i with
  | Some name, Some x => name ++ dtostrf5 x
  | _, _ => []
  end.

Definition is_digit (c : ascii) : bool :=
  (48 <=? N_of_ascii c)%N && (N_of_ascii c <=? 57)%N.

(** The reading fits the 10 bytes of [fltStr]. *)
Definition fits (x : float) : Prop :=
  (Z.of_nat (length (dtostrf5 x)) < FLTSTR_SIZE)%Z.

(** Two sensors found; they deliver 5.0 and -1.0. *)
Definition get_temp : list ascii := request_line (lit "GET") (lit "/temp").

(** The serial message of line 256. *)
Definition responding : event :=
  SerialPrintln (lit "Temperature request received; responding...").

(** The bus of [sample_env] with the lake sensor out of reach. *)
Definition lake_down_env : environment :=
  {| millis_test := 0; millis_set := 0;
     checkConnection := true; renewAddress := 20;
     available := Some get_temp; stale := zeros;
     isConnected := fun a => bool_decide (tempSensors !! 0%nat ≠ Some a);
     getTempC := sample_temperature;
     failureDetected := false |}.

(** The string a C function sees at the start of the array [l]: the bytes
    before the first terminator, when there is one inside the array. *)
Fixpoint cstring (l : list ascii) : option (list ascii) :=
  match l with
  | [] => None
  | c :: l' => if (c =? NUL)%char then Some [] else (c ::.) <$> cstring l'
  end.

Fixpoint starts_with (needle s : list ascii) : bool :=
  match needle, s with
  | [], _ => true
  | _ :: _, [] => false
  | n :: ns, c :: cs => (c =? n)%char && starts_with ns cs
  end.

(** Offset of the first place where [needle] occurs in [s]. *)
Fixpoint first_occurrence (needle s : list ascii) : option nat :=
  if starts_with needle s then Some 0%nat
  else
    match s with
    | [] => None
    | _ :: s' => S <$> first_occurrence needle s'
    end.

Definition occurs (needle s : list ascii) : bool :=
  match first_occurrence needle s with Some _ => true | None => false end.

(** The tokens of [s] between the occurrences of [d]. *)
Fixpoint split_on (d : ascii) (s : list ascii) : list (list ascii) :=
  match s with
  | [] => [[]]
  | c :: s' =>
      if (c =? d)%char then [] :: split_on d s'
      else
        match split_on d s' with
        | t :: ts => (c :: t) :: ts
        | [] => [[c]]
        end
  end.

(** Method and path as the specification reads them off a request: its
    first and second token between spaces. *)
Definition method_token (request : list ascii) : list ascii :=
  default [] (split_on SP request !! 0%nat).

Definition path_token (request : list ascii) : list ascii :=
  default [] (split_on SP request !! 1%nat).

(** What [buf] holds once a request of at most 400 bytes has been read
    over the contents [stale]. *)
Definition received (stale pending : list ascii) : list ascii :=
  pending ++ drop (length pending) stale.

(** Neither a terminator nor a space. *)
Definition plain (c : ascii) : Prop := c ≠ NUL ∧ c ≠ SP.

(** Requests used as examples. *)
Definition post_temp : list ascii := request_line (lit "POST") (lit "/temp").
Definition post_get : list ascii := request_line (lit "POST") (lit "/GET").
Definition post_get_temp : list ascii :=
  lit "POST /GET /temp HTTP/1.1" ++ CRLF ++ CRLF.
Definition get_other : list ascii := request_line (lit "GET") (lit "/other").
Definition get_bare : list ascii := lit "GET" ++ CRLF ++ CRLF.
Definition get_full : list ascii := lit "GET" ++ replicate 397 "A"%char.

(** ** Printing numbers on the serial line

    [Serial.print(n, base)] of the Arduino core writes the digits of the
    unsigned number [n], most significant first, upper case above 9, and
    one digit for 0.  An [unsigned long] has at most 32 digits. *)

Definition number_char (c : Z) : ascii :=
  ascii_of_N (Z.to_N (if (c <? 10)%Z then c + 48 else c + 65 - 10)).

Fixpoint printNumber_digits (turns : nat) (n base : Z) (str : list ascii)
  : list ascii :=
  match turns with
  | O => str
  | S turns' =>
      let str := number_char (n mod base) :: str in
      let n := (n / base)%Z in
      if (n =? 0)%Z then str else printNumber_digits turns' n base str
  end.

Definition printNumber (n base : Z) : list ascii :=
  printNumber_digits 32 n base [].

Definition DEC : Z := 10.
Definition HEX : Z := 16.

(** ** [printAddress] (lines 150-157) *)

(** The [for] of lines 152-156: [n] turns are left, the next index is [i];
    the result is the serial events so far. *)
Fixpoint printAddress_from (deviceAddress : DeviceAddress) (n i : nat)
  (evs : list event) : result (list event) :=
  match n with
  | O => Ok evs
  | S n' =>
      b ← index deviceAddress i;
      let evs := if (b <? 16)%Z then evs ++ [SerialPrint (lit "0")] else evs in
      printAddress_from deviceAddress n' (S i)
        (evs ++ [SerialPrint (printNumber b HEX)])
  end.

Definition printAddress (deviceAddress : DeviceAddress) : result (list event) :=
  printAddress_from deviceAddress 8 0 [].

(** ** [setup] (lines 63-146) *)

Definition TEMPERATURE_PRECISION : Z := 12.

(** The watchdog timeouts of avr/wdt.h, in milliseconds. *)
Definition WDTO_500MS : Z := 500.
Definition WDTO_8S : Z := 8000.

Inductive rf24_datarate_e : Type := RF24_1MBPS | RF24_2MBPS | RF24_250KBPS.

(** What [setup] does to the outside world; [Sketch] wraps the events that
    [loop] emits too. *)
Inductive boot_event : Type :=
| WdtDisable
| WdtEnable (timeout : Z)
| PinMode (pin : Z) (output : bool)
| SerialBegin (baud : Z)
| EthernetBegin (ip : list Z)
| MeshSetNodeID (nodeID : Z)
| MeshBegin (channel : Z) (rate : rf24_datarate_e) (ok : bool)
| Delay (ms : Z)
| SetGateway (ip : list Z)
| ServerBegin
| SensorsBegin
| SetResolution (address : DeviceAddress) (bits : Z)
| Sketch (e : event).

(** What [setup] observes of its surroundings. *)
Record boot_environment : Type := {
  mesh_begin : bool;                      (* mesh.begin(97, RF24_250KBPS) *)
  getDeviceCount : nat;                   (* sensors.getDeviceCount() *)
  getAddress : nat → option DeviceAddress; (* sensors.getAddress(_, i);
                                              [None] when it returns false *)
  getResolution : DeviceAddress → Z       (* sensors.getResolution *)
}.

Definition say (msg : string) : boot_event := Sketch (SerialPrint (lit msg)).
Definition sayln (msg : string) : boot_event := Sketch (SerialPrintln (lit msg)).
Definition say_number (n base : Z) : boot_event :=
  Sketch (SerialPrint (printNumber n base)).
Definition sayln_number (n base : Z) : boot_event :=
  Sketch (SerialPrintln (printNumber n base)).

(** The [for] of lines 114-142: [n] turns are left, the next index is [i]. *)
Fixpoint device_loop (benv : boot_environment) (n i : nat)
  (tr : list boot_event) : result (list boot_event) :=
  match n with
  | O => Ok tr
  | S n' =>
      match getAddress benv i with
      | Some tempDeviceAddress =>
          let tr := tr ++ [say "Found device "; say_number (Z.of_nat i) DEC;
                           say " with address: "] in
          evs ← printAddress tempDeviceAddress;
          let tr := tr ++ (Sketch <$> evs) ++ [Sketch (SerialPrintln [])] in
          let tr := tr ++ [SetResolution tempDeviceAddress TEMPERATURE_PRECISION] in
          let actual_set := getResolution benv tempDeviceAddress in
          let tr :=
            if negb (actual_set =? TEMPERATURE_PRECISION)%Z then
              tr ++ [say "Error in setting temp precision; requested";
                     say_number TEMPERATURE_PRECISION DEC;
                     say " but received ";
                     sayln_number actual_set DEC]
            else tr in
          device_loop benv n' (S i) tr
      | None =>
          let tr := tr ++ [say "Found ghost device at ";
                           say_number (Z.of_nat i) DEC;
                           sayln " but could not detect address. Check power and cabling"] in
          device_loop benv n' (S i) tr
      end
  end.

(** [delay(ms)] with the watchdog armed at [wdt]: the watchdog is not
    reset meanwhile, so the processor restarts when its timeout is shorter
    than the delay. *)
Definition survives_delay (ms : Z) (wdt : option Z) : bool :=
  match wdt with
  | Some timeout => (ms <? timeout)%Z
  | None => true
  end.

(** Lines 94-145, from [Ethernet.set_gateway] on. *)
Definition setup_sensors (benv : boot_environment) (tr : list boot_event)
  : result (list boot_event * option sketch) :=
  let tr := tr ++ [SetGateway [10; 10; 2; 1]%Z; ServerBegin;
                   sayln "done.";
                   sayln "Intializing temperature sensors...";
                   SensorsBegin] in
  let found := getDeviceCount benv in
  let tr := tr ++ [say "Found "; say_number (Z.of_nat found) DEC;
                   sayln " OneWire devices."] in
  tr ← device_loop benv found 0 tr;
  Ok (tr ++ [WdtEnable WDTO_8S], Some (booted found)).

(** [setup] returns its events and the globals it leaves to [loop], or no
    globals when the watchdog restarts the processor before it returns. *)
Definition setup (benv : boot_environment)
  : result (list boot_event * option sketch) :=
  let tr := [WdtDisable; PinMode LED_PIN true;
             Sketch (DigitalWrite LED_PIN false);
             SerialBegin 115200;
             say "Initializing radio...";
             EthernetBegin [10; 10; 2; 20]%Z;
             MeshSetNodeID 20;
             MeshBegin 97 RF24_250KBPS (mesh_begin benv)] in
  if negb (mesh_begin benv) then
    let tr := tr ++ [sayln "Error: unable to intialize mesh; retrying...";
                     WdtEnable WDTO_500MS; Delay 1000] in
    if survives_delay 1000 (Some WDTO_500MS) then setup_sensors benv tr
    else Ok (tr, None)
  else
    setup_sensors benv (tr ++ [Sketch (DigitalWrite LED_PIN true)]).

(** ** Vocabulary of the further statements *)

Definition is_client_event (e : event) : bool :=
  match e with
  | ClientFlush | ClientWrite _ | ClientStop => true
  | _ => false
  end.

Definition is_serial (e : event) : bool :=
  match e with
  | SerialPrint _ | SerialPrintln _ => true
  | _ => false
  end.

(** The bytes a trace puts on the serial line. *)
Definition serial_text (tr : list event) : list ascii :=
  concat ((λ e, match e with
                | SerialPrint msg => msg
                | SerialPrintln msg => msg ++ CRLF
                | _ => []
                end) <$> tr).

(** The events of [setup] that [loop] emits too. *)
Definition sketch_events (tr : list boot_event) : list event :=
  omap (λ b, match b with Sketch e => Some e | _ => None end) tr.

Definition is_wdt_enable (b : boot_event) : bool :=
  match b with WdtEnable _ => true | _ => false end.

Definition resolution_set (b : boot_event) : option (DeviceAddress * Z) :=
  match b with SetResolution a bits => Some (a, bits) | _ => None end.

(** Reading back two hexadecimal digits per byte. *)
Definition hex_value (c : ascii) : option Z :=
  let n := Z.of_N (N_of_ascii c) in
  if (48 <=? n)%Z && (n <=? 57)%Z then Some (n - 48)%Z
  else if (65 <=? n)%Z && (n <=? 70)%Z then Some (n - 55)%Z
  else None.

Fixpoint parse_hex_bytes (s : list ascii) : option (list Z) :=
  match s with
  | [] => Some []
  | h :: l :: rest =>
      match hex_value h, hex_value l, parse_hex_bytes rest with
      | Some hv, Some lv, Some bs => Some ((16 * hv + lv)%Z :: bs)
      | _, _, _ => None
      end
  | [_] => None
  end.

Definition is_byte (b : Z) : Prop := (0 ≤ b < 256)%Z.

(** The readings the sensors can store: multiples of 1/16 degree between
    -55.9375 (the lower end of the sensor range, corrected) and 125. *)
Definition in_range (x : float) : Prop :=
  ∃ k, (-895 ≤ k ≤ 2000)%Z ∧ x = sixteenths k.

(** A bus whose sensors deliver multiples of 1/16 degree between -55 and
    125. *)
Definition bus_in_range (env : environment) : Prop :=
  ∀ a, ∃ k, (-880 ≤ k ≤ 2000)%Z ∧ getTempC env a = sixteenths k.

(** A boot with a working radio that finds the sensors at the first [n]
    known addresses. *)
Definition sample_boot (ok : bool) (n : nat) : boot_environment :=
  {| mesh_begin := ok;
     getDeviceCount := n;
     getAddress := λ i, tempSensors !! i;
     getResolution := λ _, 12%Z |}.

(** [w'] is [w] with other readings, as many, and more serial output. *)
Definition serial_frame (w w' : sketch) : Prop :=
  numberOfOneWireDevices w' = numberOfOneWireDevices w
  ∧ mesh_timer w' = mesh_timer w
  ∧ length (temperatureReadings w') = length (temperatureReadings w)
  ∧ ∃ evs, trace w' = trace w ++ evs ∧ Forall (λ e, is_serial e = true) evs.

(** The iteration 15000 ms after the clock of [sample_env] read 20001. *)
Definition later_env : environment :=
  {| millis_test := 35001; millis_set := 35001;
     checkConnection := true; renewAddress := 20;
     available := None; stale := zeros;
     isConnected := fun _ => true; getTempC := sample_temperature;
     failureDetected := false |}.

(** What [printAddress] prints for one byte. *)
Definition byte_text (b : Z) : list ascii :=
  (if (b <? 16)%Z then lit "0" else []) ++ printNumber b HEX.

(** The events of the device loop of [setup]: serial output and
    [setResolution]. *)
Definition device_event (b : boot_event) : bool :=
  match b with
  | Sketch e => is_serial e
  | SetResolution _ _ => true
  | _ => false
  end.

(** Every address the bus reports among the first [n] has 8 bytes. *)
Definition addresses_whole (benv : boot_environment) (n : nat) : Prop :=
  ∀ i a, (i < n)%nat → getAddress benv i = Some a → length a = 8%nat.

(** The events of [setup] before its device loop when the radio starts,
    [found] devices being reported. *)
Definition boot_prefix (found : nat) : list boot_event :=
  [WdtDisable; PinMode LED_PIN true;
   Sketch (DigitalWrite LED_PIN false);
   SerialBegin 115200;
   say "Initializing radio...";
   EthernetBegin [10; 10; 2; 20]%Z;
   MeshSetNodeID 20;
   MeshBegin 97 RF24_250KBPS true;
   Sketch (DigitalWrite LED_PIN true);
   SetGateway [10; 10; 2; 1]%Z; ServerBegin;
   sayln "done.";
   sayln "Intializing temperature sensors...";
   SensorsBegin;
   say "Found "; say_number (Z.of_nat found) DEC;
   sayln " OneWire devices."].

(** The bus of [sample_env] when the lake sensor answers the presence
    check and then fails to deliver: [getTempC] reports -127.0, the value
    the sensor library returns for a device that is gone. *)
Definition vanished_env : environment :=
  {| millis_test := 0; millis_set := 0;
     checkConnection := true; renewAddress := 20;
     available := Some get_temp; stale := zeros;
     isConnected := fun _ => true;
     getTempC := fun a => if decide (tempSensors !! 0%nat = Some a)
                          then float_of (-127) 0
                          else sample_temperature a;
     failureDetected := false |}.

(** * Properties *)

Lemma emit_after (e : event) (w : sketch) : emit e w = after w [e].
Proof. reflexivity. Qed.

Lemma after_after (w : sketch) (e1 e2 : list event) :
  after (after w e1) e2 = after w (e1 ++ e2).
Proof. unfold after; simpl. by rewrite <- (assoc_L (++)). Qed.

Lemma after_nil (w : sketch) : after w [] = w.
Proof. destruct w; unfold after; simpl. by rewrite (right_id_L [] (++)). Qed.

(** ** Connectivity supervisor *)

Lemma led_level_app (init : bool) (t1 t2 : list event) :
  led_level init (t1 ++ t2) = led_level (led_level init t1) t2.
Proof. unfold led_level. apply foldl_app. Qed.

Lemma sub32_elapsed (t d : Z) :
  (0 ≤ d < 2 ^ 32)%Z → sub32 ((t + d) mod 2 ^ 32) t = d.
Proof.
  intros Hd. unfold sub32.
  rewrite Zminus_mod_idemp_l.
  replace (t + d - t)%Z with d by lia.
  apply Z.mod_small. lia.
Qed.

Lemma count_app (p : event → bool) (t1 t2 : list event) :
  count p (t1 ++ t2) = (count p t1 + count p t2)%nat.
Proof. unfold count. by rewrite filter_app, length_app. Qed.

(** C6.  When the health check runs and the probe fails, the LED is
    written low right after the probe, is low when the blocking renewal
    is entered and when it returns, and is written high right after it,
    whatever the renewal returned; when the probe succeeds the LED is
    written high. *)
Theorem indicator_tracks_probe (env : environment) (w : sketch) :
  mesh_due env w = true →
  let w' := mesh_check env w in
  if checkConnection env then
    trace w' = trace w ++ [CheckConnection true; DigitalWrite LED_PIN true]
    ∧ ∀ init, led_level init (trace w') = true
  else
    trace w' = trace w ++
      [CheckConnection false; DigitalWrite LED_PIN false;
       RenewAddress (renewAddress env); DigitalWrite LED_PIN true]
    ∧ (∀ init, led_level init
         (trace w ++ [CheckConnection false; DigitalWrite LED_PIN false]) = false)
    ∧ (∀ init, led_level init
         (trace w ++ [CheckConnection false; DigitalWrite LED_PIN false;
                      RenewAddress (renewAddress env)]) = false)
    ∧ ∀ init, led_level init (trace w') = true.
Proof.
  intros Hdue w'. subst w'. unfold mesh_check. rewrite Hdue.
  destruct (checkConnection env); simpl.
  - rewrite <- !(assoc_L (++)). split; [done|].
    intros init. by rewrite led_level_app.
  - rewrite <- !(assoc_L (++)). repeat split; try done.
    all: intros init; by rewrite led_level_app.
Qed.

Lemma indicator_tracks_probe_witness :
  mesh_due (sample_env None) (booted 3) = true ∧
  trace (mesh_check (sample_env None) (booted 3)) =
    [CheckConnection false; DigitalWrite LED_PIN false;
     RenewAddress 20; DigitalWrite LED_PIN true].
Proof.
  split; [reflexivity|].
  apply (indicator_tracks_probe (sample_env None) (booted 3)). reflexivity.
Defined.

(** C8.  With [d] milliseconds elapsed since [mesh_timer] was set, the
    clock having possibly wrapped in between, the probe runs exactly when
    [d] exceeds 15000; a check that runs probes once and restarts the
    interval at the current time, whatever the probe returns. *)
Theorem mesh_check_rate (env : environment) (w : sketch) (d : Z) :
  (0 ≤ d < 2 ^ 32)%Z →
  millis_test env = ((mesh_timer w + d) mod 2 ^ 32)%Z →
  (mesh_due env w = true ↔ (MESH_CHECK_INTERVAL < d)%Z)
  ∧ ((d ≤ MESH_CHECK_INTERVAL)%Z → mesh_check env w = w)
  ∧ ((MESH_CHECK_INTERVAL < d)%Z →
       mesh_timer (mesh_check env w) = millis_set env
       ∧ count is_probe (trace (mesh_check env w))
         = S (count is_probe (trace w))).
Proof.
  intros Hd Hnow.
  assert (Hdue : mesh_due env w = (MESH_CHECK_INTERVAL <? d)%Z).
  { unfold mesh_due. by rewrite Hnow, sub32_elapsed. }
  split; [|split].
  - rewrite Hdue. apply Z.ltb_lt.
  - intros Hle. unfold mesh_check. rewrite Hdue.
    by destruct (Z.ltb_spec MESH_CHECK_INTERVAL d); [lia|].
  - intros Hlt. unfold mesh_check. rewrite Hdue.
    destruct (Z.ltb_spec MESH_CHECK_INTERVAL d); [|lia].
    destruct (checkConnection env); simpl.
    + split; [done|]. rewrite !count_app. simpl. unfold count at 2 3; simpl. lia.
    + split; [done|]. rewrite !count_app. simpl. unfold count at 2 3 4 5; simpl. lia.
Qed.

(** After the wrap, with exactly 15000 ms elapsed, no probe runs yet. *)
Lemma mesh_check_rate_witness :
  mesh_check wrapped_env wrapped_world = wrapped_world.
Proof.
  apply (mesh_check_rate wrapped_env wrapped_world 15000); [lia|reflexivity|].
  unfold MESH_CHECK_INTERVAL. lia.
Defined.

(** ** The result monad *)

Lemma bind_Ok {A B} (m : result A) (k : A → result B) (b : B) :
  m ≫= k = Ok b ↔ ∃ a, m = Ok a ∧ k a = Ok b.
Proof.
  destruct m as [a|f]; simpl; split.
  - intros H. by exists a.
  - by intros (a' & [= ->] & H).
  - done.
  - by intros (a' & [=] & _).
Qed.

Lemma bind_Ok_l {A B} (a : A) (k : A → result B) : Ok a ≫= k = k a.
Proof. reflexivity. Qed.

Ltac step := rewrite bind_Ok_l; cbv beta.

Ltac bind_inv H :=
  let a := fresh "a" in
  let Ha := fresh "Ha" in
  apply bind_Ok in H as (a & Ha & H).

(** ** Reading the request *)

Lemma read_request_overflow (pending buf : list ascii) (idx : Z) :
  (0 ≤ idx ≤ HTTP_BUFFER_SIZE)%Z →
  (HTTP_BUFFER_SIZE - idx < Z.of_nat (length pending))%Z →
  let rs := read_request pending buf idx in
  rs_idx rs = HTTP_BUFFER_SIZE
  ∧ rs_pending rs = drop (Z.to_nat (HTTP_BUFFER_SIZE - idx)) pending
  ∧ rs_evalInput rs = false
  ∧ rs_error_type rs = ERR_BUF_OVERFLOW.
Proof.
  unfold HTTP_BUFFER_SIZE.
  revert buf idx. induction pending as [|b rest IH]; intros buf idx Hidx Hlen.
  - simpl in Hlen. lia.
  - cbn [read_request]. unfold HTTP_BUFFER_SIZE.
    destruct (Z.leb_spec 1 (400 - idx)) as [Hroom|Hfull].
    + specialize (IH (<[Z.to_nat idx := b]> buf) (idx + 1)%Z).
      cbn zeta in IH. destruct IH as (H1 & H2 & H3 & H4).
      { lia. } { simpl in Hlen. lia. }
      repeat split; try done.
      rewrite H2.
      replace (Z.to_nat (400 - idx)) with (S (Z.to_nat (400 - (idx + 1)))) by lia.
      done.
    + cbn. assert (idx = 400%Z) as -> by lia. done.
Qed.

(** C2.  A request of more than 400 bytes: the read loop stops when the
    buffer is full, with input left over; the leftover is flushed, the
    request is not parsed, no sensor is refreshed, and the only bytes
    written are the 431 response. *)
Theorem oversized_request_rejected
  (env : environment) (pending : list ascii) (w : sketch) :
  (HTTP_BUFFER_SIZE < Z.of_nat (length pending))%Z →
  let rs := read_request pending (stale env) 0 in
  rs_idx rs = HTTP_BUFFER_SIZE
  ∧ rs_pending rs = drop 400 pending
  ∧ rs_pending rs ≠ []
  ∧ rs_evalInput rs = false
  ∧ outcome_of (false, rs_error_type rs) = BufferOverflow
  ∧ classify (stale env) pending = Ok (false, ERR_BUF_OVERFLOW)
  ∧ service env pending w =
      Ok (after w [ClientFlush;
                   ClientWrite
                     (lit "HTTP/1.1 431 Request Header Fields Too Large "
                      ++ CRLF ++ CRLF);
                   ClientStop]).
Proof.
  intros Hlen rs.
  destruct (read_request_overflow pending (stale env) 0) as (H1 & H2 & H3 & H4).
  { unfold HTTP_BUFFER_SIZE. lia. } { lia. }
  fold rs in H1, H2, H3, H4.
  assert (Hc : classify (stale env) pending = Ok (false, ERR_BUF_OVERFLOW)).
  { unfold classify. fold rs. by rewrite H3, H4. }
  repeat split; try done.
  - rewrite H2. intros Hnil.
    apply (f_equal length) in Hnil. rewrite length_drop in Hnil.
    unfold HTTP_BUFFER_SIZE in *. simpl in Hnil. lia.
  - by rewrite H4.
  - unfold service. rewrite Hc. simpl.
    by rewrite !emit_after, !after_after.
Qed.

Lemma oversized_request_rejected_witness :
  classify zeros (replicate 401 "A"%char) = Ok (false, ERR_BUF_OVERFLOW).
Proof.
  apply (oversized_request_rejected
           (sample_env None) (replicate 401 "A"%char) (booted 3)).
  vm_compute. reflexivity.
Defined.

(** ** The watchdog *)

Lemma quiet_refl (w : sketch) : quiet w w.
Proof. exists []. by rewrite (right_id_L [] (++)). Qed.

Lemma quiet_trans (w1 w2 w3 : sketch) : quiet w1 w2 → quiet w2 w3 → quiet w1 w3.
Proof.
  intros (e1 & H1 & C1) (e2 & H2 & C2). exists (e1 ++ e2).
  rewrite H2, H1, count_app, C1, C2. by rewrite (assoc_L (++)).
Qed.

Lemma quiet_emit (e : event) (w : sketch) : is_wdt_reset e = false → quiet w (emit e w).
Proof.
  intros He. exists [e]. split; [done|].
  unfold count. rewrite filter_cons. case_decide; [congruence|done].
Qed.

Lemma quiet_emit_r (e : event) (w w1 : sketch) :
  is_wdt_reset e = false → quiet w w1 → quiet w (emit e w1).
Proof. intros He H. eapply quiet_trans; [done|by apply quiet_emit]. Qed.

Lemma quiet_set_readings (r : list float) (w : sketch) : quiet w (set_readings r w).
Proof. exists []. simpl. by rewrite (right_id_L [] (++)). Qed.

Lemma quiet_saveTemperature (env : environment) (i : nat) (w w' : sketch) :
  saveTemperature env i w = Ok w' → quiet w w'.
Proof.
  unfold saveTemperature. intros H. bind_inv H.
  destruct (isConnected env a).
  - bind_inv H. injection H as <-. apply quiet_set_readings.
  - bind_inv H. injection H as <-.
    do 2 (apply quiet_emit_r; [done|]). apply quiet_refl.
Qed.

Lemma quiet_sensor_loop (env : environment) (n i : nat) (w w' : sketch)
  (buf buf' : list ascii) :
  sensor_loop env n i w buf = Ok (w', buf') → quiet w w'.
Proof.
  revert i w buf. induction n as [|n IH]; intros i w buf H.
  - injection H as <- <-. apply quiet_refl.
  - cbn [sensor_loop] in H. do 7 bind_inv H.
    eapply quiet_trans; [by eapply quiet_saveTemperature|by eapply IH].
Qed.

Lemma quiet_respond (env : environment) (c : bool * error) (w w' : sketch) :
  respond env c w = Ok w' → quiet w w'.
Proof.
  unfold respond. destruct c as [[] e]; intros H.
  - do 2 bind_inv H. destruct a0 as [w1 buf1]. bind_inv H. injection H as <-.
    do 2 (apply quiet_emit_r; [done|]).
    eapply quiet_trans; [|by eapply quiet_sensor_loop].
    do 2 (apply quiet_emit_r; [done|]). apply quiet_refl.
  - injection H as <-. do 2 (apply quiet_emit_r; [done|]). apply quiet_refl.
Qed.

Lemma quiet_service (env : environment) (pending : list ascii) (w w' : sketch) :
  service env pending w = Ok w' → quiet w w'.
Proof.
  unfold service. intros H. bind_inv H.
  eapply quiet_trans; [by apply (quiet_emit ClientFlush)|by eapply quiet_respond].
Qed.

Lemma quiet_mesh_check (env : environment) (w : sketch) : quiet w (mesh_check env w).
Proof.
  unfold mesh_check. destruct (mesh_due env w); [|apply quiet_refl].
  assert (Hset : quiet w (set_mesh_timer (millis_set env) w)).
  { exists []. simpl. by rewrite (right_id_L [] (++)). }
  destruct (checkConnection env); simpl;
    repeat (apply quiet_emit_r; [done|]); done.
Qed.

(** C7.  An iteration of [loop] that completes resets the watchdog after
    all its other events, once if the radio reports no failure and not at
    all if it does; an iteration can only fail to complete while a client
    is being serviced. *)
Theorem watchdog_fed_last (env : environment) (w : sketch) :
  match loop env w with
  | Ok w' =>
      ∃ work,
        trace w' = trace w ++ work
                   ++ (if failureDetected env then [] else [WdtReset])
        ∧ count is_wdt_reset work = 0%nat
        ∧ count is_wdt_reset
            (work ++ (if failureDetected env then [] else [WdtReset]))
          = (if failureDetected env then 0%nat else 1%nat)
  | Undefined _ => available env ≠ None
  end.
Proof.
  unfold loop.
  pose proof (quiet_mesh_check env w) as Hm.
  destruct (available env) as [pending|] eqn:Hav; simpl.
  - destruct (service env pending (mesh_check env w)) as [w1|f] eqn:Hs; simpl; [|done].
    destruct (quiet_trans _ _ _ Hm (quiet_service _ _ _ _ Hs)) as (evs & Ht & Hc).
    exists evs. rewrite count_app, Hc.
    destruct (failureDetected env); simpl.
    + by rewrite Ht, (right_id_L [] (++)).
    + by rewrite Ht, (assoc_L (++)).
  - destruct Hm as (evs & Ht & Hc).
    exists evs. rewrite count_app, Hc.
    destruct (failureDetected env); simpl.
    + by rewrite Ht, (right_id_L [] (++)).
    + by rewrite Ht, (assoc_L (++)).
Qed.

(** ** The sensor bank *)

Lemma known_sensor (i : nat) :
  (i < 3)%nat →
  ∃ a name, tempSensors !! i = Some a ∧ tempSensorNames !! i = Some name
            ∧ (length name ≤ 13)%nat.
Proof.
  intros Hi. destruct i as [|[|[|i]]]; [| | |lia].
  all: eexists _, _; repeat split; simpl; lia.
Qed.

Lemma refresh_one_length (env : environment) (r : list float) (i : nat) :
  length (refresh_one env r i) = length r.
Proof. unfold refresh_one. destruct (r !! i); [apply length_insert|done]. Qed.

Lemma refresh_one_lookup_ne (env : environment) (r : list float) (i j : nat) :
  i ≠ j → refresh_one env r i !! j = r !! j.
Proof.
  intros Hne. unfold refresh_one.
  destruct (r !! i); [by apply list_lookup_insert_ne|done].
Qed.

Lemma refresh_one_lookup (env : environment) (r : list float) (i : nat) (old : float) :
  r !! i = Some old → refresh_one env r i !! i = Some (refreshed env i old).
Proof.
  intros Hold. unfold refresh_one. rewrite Hold.
  apply list_lookup_insert_eq. by eapply lookup_lt_Some.
Qed.

Lemma refresh_all_S (env : environment) (i n : nat) (r : list float) :
  refresh_all env i (S n) r = refresh_all env (S i) n (refresh_one env r i).
Proof. reflexivity. Qed.

Lemma refresh_all_length (env : environment) (i n : nat) (r : list float) :
  length (refresh_all env i n r) = length r.
Proof.
  revert i r. induction n as [|n IH]; intros i r; [done|].
  by rewrite refresh_all_S, IH, refresh_one_length.
Qed.

Lemma refresh_all_lookup_lt (env : environment) (i n j : nat) (r : list float) :
  (j < i)%nat → refresh_all env i n r !! j = r !! j.
Proof.
  revert i r. induction n as [|n IH]; intros i r Hj; [done|].
  rewrite refresh_all_S, IH by lia. apply refresh_one_lookup_ne. lia.
Qed.

Lemma refresh_all_lookup (env : environment) (i n j : nat) (r : list float) (old : float) :
  (i ≤ j < i + n)%nat → r !! j = Some old →
  refresh_all env i n r !! j = Some (refreshed env j old).
Proof.
  revert i r. induction n as [|n IH]; intros i r Hj Hold; [lia|].
  rewrite refresh_all_S.
  destruct (decide (i = j)) as [->|Hne].
  - rewrite refresh_all_lookup_lt by lia. by apply refresh_one_lookup.
  - apply IH; [lia|]. by rewrite refresh_one_lookup_ne.
Qed.

Lemma saveTemperature_ok (env : environment) (i : nat) (w : sketch) :
  (i < 3)%nat → length (temperatureReadings w) = 3%nat →
  saveTemperature env i w =
    Ok (after (set_readings (refresh_one env (temperatureReadings w) i) w)
              (diagnostics env i)).
Proof.
  intros Hi Hlen.
  destruct (known_sensor i Hi) as (a & name & Ha & Hname & _).
  destruct (lookup_lt_is_Some_2 (temperatureReadings w) i) as [old Hold]; [lia|].
  unfold saveTemperature, index, store, diagnostics, refresh_one, refreshed.
  rewrite Ha, Hname, Hold. simpl.
  destruct (isConnected env a); simpl.
  - destruct (Nat.ltb_spec i (length (temperatureReadings w))); [|lia]. simpl.
    rewrite after_nil. unfold calibrated.
    destruct (Nat.eqb_spec i 2), (decide (i = 2%nat)); done || lia.
  - rewrite list_insert_id by done.
    rewrite !emit_after, after_after. by destruct w.
Qed.

(** C10.  After [saveTemperature] on a sensor that answers, the reading
    held for that sensor in the state it returns is the raw reading minus
    0.9375 when it is sensor 2, and the raw reading itself when it is
    sensor 0 or 1; the other readings and the trace are as before.  The
    subtraction is that of binary32, and 0.9375 is the binary32 number
    15728640 * 2^-24; on the readings sensor 2 can deliver, the multiples
    k/16 between -55 and 125 degrees, the stored reading is (k - 15)/16
    exactly. *)
Theorem calibration_offset
  (env : environment) (w : sketch) (sensorId : nat) (addr : DeviceAddress) :
  tempSensors !! sensorId = Some addr →
  isConnected env addr = true →
  length (temperatureReadings w) = 3%nat →
  ∃ w',
    saveTemperature env sensorId w = Ok w'
    ∧ temperatureReadings w' !! sensorId
      = Some (if decide (sensorId = 2%nat)
              then SFsub 24 128 (getTempC env addr)
                     (S754_finite false 15728640 (-24))
              else getTempC env addr)
    ∧ (∀ j, j ≠ sensorId →
            temperatureReadings w' !! j = temperatureReadings w !! j)
    ∧ length (temperatureReadings w') = 3%nat
    ∧ trace w' = trace w
    ∧ (∀ k, (-880 ≤ k ≤ 2000)%Z → sensorId = 2%nat →
            getTempC env addr = binary_normalize 24 128 k (-4) false →
            temperatureReadings w' !! sensorId
            = Some (binary_normalize 24 128 (k - 15) (-4) false)).
Proof.
  intros Ha Hconn Hlen.
  assert (Hi : (sensorId < 3)%nat).
  { apply lookup_lt_Some in Ha. simpl in Ha. lia. }
  destruct (lookup_lt_is_Some_2 (temperatureReadings w) sensorId) as [old Hold];
    [lia|].
  assert (Hdiag : diagnostics env sensorId = []).
  { unfold diagnostics. rewrite Ha, Hconn. by destruct (tempSensorNames !! sensorId). }
  assert (Hstored : refresh_one env (temperatureReadings w) sensorId !! sensorId
                    = Some (if decide (sensorId = 2%nat)
                            then SFsub 24 128 (getTempC env addr)
                                   (S754_finite false 15728640 (-24))
                            else getTempC env addr)).
  { pose proof (refresh_one_lookup env _ _ _ Hold) as H.
    unfold refreshed, calibrated in H. rewrite Ha, Hconn in H. exact H. }
  exists (after (set_readings (refresh_one env (temperatureReadings w) sensorId) w)
            (diagnostics env sensorId)).
  split; [by apply saveTemperature_ok|].
  cbn [temperatureReadings trace after set_readings].
  split; [exact Hstored|].
  split; [intros j Hj; by apply refresh_one_lookup_ne|].
  split; [by rewrite refresh_one_length|].
  split; [by rewrite Hdiag, (right_id_L [] (++))|].
  intros k Hk -> Hraw. etrans; [exact Hstored|]. rewrite Hraw.
  destruct (decide (2 = 2)%nat); [|done]. f_equal.
  assert (Hall : forallb (fun k => bool_decide
                   (SFsub 24 128 (binary_normalize 24 128 k (-4) false)
                      (S754_finite false 15728640 (-24))
                    = binary_normalize 24 128 (k - 15) (-4) false))
                   (seqZ (-880) 2881) = true) by (vm_compute; reflexivity).
  rewrite forallb_forall in Hall.
  specialize (Hall k). rewrite bool_decide_eq_true in Hall. apply Hall.
  apply list_elem_of_In, elem_of_seqZ. lia.
Qed.

(** The intake sensor delivers 20.3125 degrees; 19.375, that is
    10158080 * 2^-19, is what the returned state holds for it. *)
Lemma calibration_offset_witness :
  ∃ w', saveTemperature (sample_env None) 2 (booted 3) = Ok w'
        ∧ temperatureReadings w' !! 2%nat
          = Some (S754_finite false 10158080 (-19)).
Proof.
  destruct (calibration_offset (sample_env None) (booted 3) 2
              [0x28; 0x0A; 0x62; 0xB8; 0x07; 0x00; 0x00; 0xB4]%Z)
    as (w' & Hs & Hr & _); [reflexivity|reflexivity|reflexivity|].
  exists w'. split; [exact Hs|]. etrans; [exact Hr|]. vm_compute. reflexivity.
Defined.

(** ** Writing the success response *)

Lemma strcat_ok (dst src : list ascii) :
  (length dst + length src < 400)%nat → strcat dst src = Ok (dst ++ src).
Proof.
  intros H. unfold strcat, HTTP_BUFFER_SIZE. rewrite length_app.
  destruct (Z.ltb_spec (Z.of_nat (length dst + length src)) 400); [done|lia].
Qed.

Lemma dtostrf_ok (x : float) : fits x → dtostrf x = Ok (dtostrf5 x).
Proof.
  unfold fits, dtostrf. intros H.
  by destruct (Z.ltb_spec (Z.of_nat (length (dtostrf5 x))) FLTSTR_SIZE); [|lia].
Qed.

Lemma set_readings_same (w : sketch) : set_readings (temperatureReadings w) w = w.
Proof. by destruct w. Qed.

Lemma sensor_loop_ok (env : environment) (n i : nat) (w : sketch) (buf : list ascii) :
  (i + n = numberOfOneWireDevices w)%nat →
  (numberOfOneWireDevices w ≤ 3)%nat →
  length (temperatureReadings w) = 3%nat →
  (∀ j x, (i ≤ j < i + n)%nat →
          refresh_all env i n (temperatureReadings w) !! j = Some x → fits x) →
  (length buf + 23 * n < 400)%nat →
  sensor_loop env n i w buf =
    Ok (after (set_readings (refresh_all env i n (temperatureReadings w)) w)
              (concat (map (diagnostics env) (seq i n))),
        buf ++ join (lit "|")
                 (map (entry (refresh_all env i n (temperatureReadings w)))
                      (seq i n))).
Proof.
  revert i w buf. induction n as [|n IH]; intros i w buf HN Hle Hlen Hfits Hcap.
  - simpl. unfold refresh_all; simpl.
    by rewrite set_readings_same, after_nil, (right_id_L [] (++)).
  - cbn [sensor_loop].
    assert (Hi : (i < 3)%nat) by lia.
    destruct (known_sensor i Hi) as (a & name & Ha & Hname & Hnamelen).
    destruct (lookup_lt_is_Some_2 (temperatureReadings w) i) as [old Hold]; [lia|].
    set (r1 := refresh_one env (temperatureReadings w) i).
    set (final := refresh_all env i (S n) (temperatureReadings w)) in *.
    assert (Hfinal : final = refresh_all env (S i) n r1) by apply refresh_all_S.
    assert (Hx : final !! i = Some (refreshed env i old)).
    { rewrite Hfinal, refresh_all_lookup_lt by lia. by apply refresh_one_lookup. }
    assert (Hfit : fits (refreshed env i old)) by (apply (Hfits i); [lia|done]).
    assert (Hdlen : (length (dtostrf5 (refreshed env i old)) ≤ 9)%nat).
    { unfold fits, FLTSTR_SIZE in Hfit. lia. }
    set (w1 := after (set_readings r1 w) (diagnostics env i)).
    assert (Hr1 : index (temperatureReadings w1) i = Ok (refreshed env i old)).
    { unfold index. simpl. subst r1. by rewrite (refresh_one_lookup env _ _ _ Hold). }
    assert (HnameOk : index tempSensorNames i = Ok name).
    { unfold index. by rewrite Hname. }
    rewrite saveTemperature_ok by done. fold r1 w1. step.
    rewrite HnameOk. step.
    rewrite strcat_ok by lia. step.
    rewrite Hr1. step.
    rewrite dtostrf_ok by done. step.
    rewrite strcat_ok by (rewrite length_app; lia). step.
    replace (numberOfOneWireDevices w1) with (numberOfOneWireDevices w) by done.
    assert (Hw1 : ∀ buf3,
      (length buf3 + 23 * n < 400)%nat →
      sensor_loop env n (S i) w1 buf3 =
        Ok (after (set_readings final w)
                  (diagnostics env i ++ concat (map (diagnostics env) (seq (S i) n))),
            buf3 ++ join (lit "|") (map (entry final) (seq (S i) n)))).
    { intros buf3 Hcap3.
      assert (Hr1len : length r1 = 3%nat).
      { unfold r1. by rewrite refresh_one_length. }
      rewrite IH.
      - simpl. fold r1. rewrite <- Hfinal. unfold after; simpl.
        by rewrite <- (assoc_L (++)).
      - simpl. lia.
      - done.
      - done.
      - simpl. fold r1. rewrite <- Hfinal. intros j x Hj. apply Hfits. lia.
      - done. }
    assert (Hentry : entry final i = name ++ dtostrf5 (refreshed env i old)).
    { unfold entry. by rewrite Hname, Hx. }
    destruct (Z.ltb_spec (Z.of_nat i) (Z.of_nat (i + S n) - 1)) as [Hmore|Hlast].
    + rewrite <- HN.
      destruct (Z.ltb_spec (Z.of_nat i) (Z.of_nat (i + S n) - 1)); [|lia].
      rewrite strcat_ok by (rewrite !length_app; simpl; lia). step.
      rewrite Hw1 by (rewrite !length_app; simpl; lia).
      destruct n as [|n]; [lia|].
      cbn [seq map concat join]. rewrite Hentry.
      by rewrite <- !(assoc_L (++)).
    + rewrite <- HN.
      destruct (Z.ltb_spec (Z.of_nat i) (Z.of_nat (i + S n) - 1)); [lia|].
      step.
      rewrite Hw1 by (rewrite !length_app; simpl; lia).
      destruct n as [|n]; [|lia].
      cbn [seq map concat join]. rewrite Hentry.
      by rewrite <- !(assoc_L (++)), !(right_id_L [] (++)).
Qed.

Lemma entry_length (final : list float) (i : nat) :
  (i < 3)%nat → (∀ x, final !! i = Some x → fits x) →
  (length (entry final i) ≤ 22)%nat.
Proof.
  intros Hi Hfit. unfold entry.
  destruct (known_sensor i Hi) as (a & name & _ & -> & Hname).
  destruct (final !! i) as [x|]; [|simpl; lia].
  specialize (Hfit x eq_refl). unfold fits, FLTSTR_SIZE in Hfit.
  rewrite length_app. lia.
Qed.

Lemma join_cons (sep p q : list ascii) (ps : list (list ascii)) :
  join sep (p :: q :: ps) = p ++ sep ++ join sep (q :: ps).
Proof. reflexivity. Qed.

Lemma join_length (sep : list ascii) (parts : list (list ascii)) :
  length (join sep parts)
  = (list_sum (length <$> parts) + length sep * (length parts - 1))%nat.
Proof.
  induction parts as [|p ps IH]; [simpl; lia|].
  destruct ps as [|q ps].
  - simpl. rewrite Nat.mul_0_r. lia.
  - rewrite join_cons, !length_app, IH.
    cbn [fmap list_fmap list_sum length].
    replace (S (S (length ps)) - 1)%nat with (S (length ps)) by lia.
    replace (S (length ps) - 1)%nat with (length ps) by lia.
    rewrite Nat.mul_succ_r. simpl. lia.
Qed.

Lemma join_entries_length (final : list float) (i n : nat) :
  (i + n ≤ 3)%nat →
  (∀ j x, (i ≤ j < i + n)%nat → final !! j = Some x → fits x) →
  (length (join (lit "|") (map (entry final) (seq i n))) ≤ 23 * n)%nat.
Proof.
  revert i. induction n as [|n IH]; intros i Hle Hfits; [simpl; lia|].
  assert (He : (length (entry final i) ≤ 22)%nat).
  { apply entry_length; [lia|]. intros x. apply Hfits. lia. }
  destruct n as [|n]; [simpl; lia|].
  assert (Hrest : (length (join (lit "|") (map (entry final) (seq (S i) (S n))))
                   ≤ 23 * S n)%nat).
  { apply IH; [lia|]. intros j x Hj. apply Hfits. lia. }
  change (seq i (S (S n))) with (i :: S i :: seq (S (S i)) n).
  change (seq (S i) (S n)) with (S i :: seq (S (S i)) n) in Hrest.
  rewrite !map_cons in *. rewrite join_cons, !length_app.
  change (length (lit "|")) with 1%nat. lia.
Qed.

Lemma respond_serve (env : environment) (e : error) (w : sketch) :
  (numberOfOneWireDevices w ≤ 3)%nat →
  length (temperatureReadings w) = 3%nat →
  (∀ j x, (j < numberOfOneWireDevices w)%nat →
          refresh_all env 0 (numberOfOneWireDevices w) (temperatureReadings w) !! j
            = Some x → fits x) →
  respond env (true, e) w =
    Ok (after
          (set_readings
             (refresh_all env 0 (numberOfOneWireDevices w) (temperatureReadings w)) w)
          ([RequestTemperatures; responding]
           ++ concat (map (diagnostics env) (seq 0 (numberOfOneWireDevices w)))
           ++ [ClientWrite
                 (header_200
                  ++ join (lit "|")
                       (map (entry (refresh_all env 0 (numberOfOneWireDevices w)
                                      (temperatureReadings w)))
                            (seq 0 (numberOfOneWireDevices w)))
                  ++ CRLF);
               ClientStop])).
Proof.
  intros Hle Hlen Hfits. unfold respond.
  set (N := numberOfOneWireDevices w) in *.
  set (final := refresh_all env 0 N (temperatureReadings w)) in *.
  assert (Hhdr : length header_200 = 80%nat) by reflexivity.
  rewrite (strcat_ok [] header_200) by (rewrite Hhdr; simpl; lia). step.
  set (w0 := emit _ (emit RequestTemperatures w)).
  change (numberOfOneWireDevices w0) with N.
  rewrite (sensor_loop_ok env N 0 w0 ([] ++ header_200)); try done.
  - step. change (temperatureReadings w0) with (temperatureReadings w). fold final.
    pose proof (join_entries_length final 0 N) as Hjoin.
    rewrite strcat_ok.
    + step. f_equal.
      unfold after, emit, set_readings, w0, responding.
      cbn [trace numberOfOneWireDevices temperatureReadings mesh_timer].
      rewrite (left_id_L [] (++) header_200).
      f_equal. cbn [trace emit]. rewrite <- !(assoc_L (++)). done.
    + rewrite !length_app, Hhdr. change (length CRLF) with 2%nat.
      change (length []) with 0%nat.
      assert ((length (join (lit "|") (map (entry final) (seq 0 N))) ≤ 23 * N)%nat).
      { apply Hjoin; [lia|]. intros j x Hj. apply Hfits. lia. }
      lia.
  - intros j x Hj. apply Hfits. lia.
  - rewrite length_app, Hhdr. change (length []) with 0%nat. lia.
Qed.

Lemma digit_is_digit (d : Z) : is_digit (digit d) = true.
Proof.
  unfold is_digit, digit.
  pose proof (Z.mod_pos_bound d 10 ltac:(lia)) as Hm.
  rewrite N_ascii_embedding by lia.
  apply andb_true_intro; split; apply N.leb_le; lia.
Qed.

Lemma dtostrf5_fraction (x : float) :
  is_finite x = true →
  ∃ whole frac, dtostrf5 x = whole ++ lit "." ++ frac
                ∧ length frac = 5%nat ∧ forallb is_digit frac = true.
Proof.
  assert (Hfrac : ∀ q, forallb is_digit (fraction5 q) = true).
  { intros q. unfold fraction5. simpl. by rewrite !digit_is_digit. }
  destruct x as [s|s| |s m e]; simpl; try done; intros _.
  - exists (minus s ++ decimal (0 / 100000)), (fraction5 (0 mod 100000)).
    unfold fixed5. rewrite <- !(assoc_L (++)). by rewrite Hfrac.
  - exists (minus s ++ decimal (scaled5 m e / 100000)),
           (fraction5 (scaled5 m e mod 100000)).
    unfold fixed5. rewrite <- !(assoc_L (++)). by rewrite Hfrac.
Qed.

(** Within the bounds of the tables and of [fltStr]: for a request
    classified as Serve, with [N] sensors found ([N] at most 3) and
    readings that fit [fltStr], the sensors are refreshed, and the one
    write to the client is the 200 header, then the [N] pairs of label and
    reading in the order of the tables with a bar between neighbours and
    none after the last ([N - 1] bars), then a line break; every finite
    reading is printed with a point followed by exactly 5 digits.  The
    connection is then closed. *)
Theorem serve_response
  (env : environment) (pending : list ascii) (w : sketch) (c : bool * error) :
  classify (stale env) pending = Ok c →
  outcome_of c = Serve →
  (numberOfOneWireDevices w ≤ 3)%nat →
  length (temperatureReadings w) = 3%nat →
  let N := numberOfOneWireDevices w in
  let final := refresh_all env 0 N (temperatureReadings w) in
  (∀ j x, (j < N)%nat → final !! j = Some x → fits x) →
  let pairs := map (entry final) (seq 0 N) in
  service env pending w =
    Ok (after (set_readings final w)
          ([ClientFlush; RequestTemperatures; responding]
           ++ concat (map (diagnostics env) (seq 0 N))
           ++ [ClientWrite (header_200 ++ join (lit "|") pairs ++ CRLF);
               ClientStop]))
  ∧ length pairs = N
  ∧ length (join (lit "|") pairs) = (list_sum (length <$> pairs) + (N - 1))%nat
  ∧ ∀ j, (j < N)%nat →
      ∃ name x,
        tempSensorNames !! j = Some name ∧ final !! j = Some x
        ∧ pairs !! j = Some (name ++ dtostrf5 x)
        ∧ (is_finite x = true →
           ∃ whole frac, dtostrf5 x = whole ++ lit "." ++ frac
                         ∧ length frac = 5%nat ∧ forallb is_digit frac = true).
Proof.
  intros Hc Hserve Hle Hlen N final Hfits pairs.
  assert (∃ e, c = (true, e)) as [e ->].
  { destruct c as [[] e]; [by exists e|by destruct e]. }
  assert (Hpairs : length pairs = N).
  { unfold pairs. by rewrite length_map, length_seq. }
  split; [|split; [|split]].
  - unfold service. rewrite Hc. step.
    rewrite respond_serve; try done.
    f_equal. unfold after, emit, set_readings.
    cbn [trace numberOfOneWireDevices temperatureReadings mesh_timer].
    f_equal. by rewrite <- !(assoc_L (++)).
  - done.
  - rewrite join_length, Hpairs. change (length (lit "|")) with 1%nat. lia.
  - intros j Hj.
    destruct (known_sensor j ltac:(lia)) as (a & name & _ & Hname & _).
    destruct (lookup_lt_is_Some_2 final j) as [x Hx].
    { unfold final. rewrite refresh_all_length. lia. }
    exists name, x. repeat split; try done.
    + unfold pairs. rewrite list_lookup_fmap, lookup_seq_lt by done.
      simpl. unfold entry. by rewrite Hname, Hx.
    + apply dtostrf5_fraction.
Qed.

(** The request [GET /temp HTTP/1.1] with two sensors found, which deliver
    5.0 and -1.0. *)
Lemma serve_response_witness :
  service (sample_env (Some get_temp)) get_temp (booted 2) =
    Ok (after
          (set_readings [float_of 5 0; SFopp (float_of 1 0); S754_zero false]
             (booted 2))
          [ClientFlush; RequestTemperatures; responding;
           ClientWrite
             (header_200
              ++ lit "Lake Water: 5.00000|Outside Air: -1.00000" ++ CRLF);
           ClientStop]).
Proof.
  pose proof (serve_response (sample_env (Some get_temp)) get_temp (booted 2)
                (true, ERR_UNKNOWN)) as H.
  assert (H1 : classify (stale (sample_env (Some get_temp))) get_temp
               = Ok (true, ERR_UNKNOWN)) by (vm_compute; reflexivity).
  assert (H2 : (numberOfOneWireDevices (booted 2) ≤ 3)%nat) by (simpl; lia).
  specialize (H H1 eq_refl H2 eq_refl). cbv zeta in H.
  assert (H3 : ∀ j x, (j < numberOfOneWireDevices (booted 2))%nat →
             refresh_all (sample_env (Some get_temp)) 0
               (numberOfOneWireDevices (booted 2))
               (temperatureReadings (booted 2)) !! j = Some x → fits x).
  { intros [|[|j]] x Hj; [| |simpl in Hj; lia].
    all: intros [= <-]; vm_compute; reflexivity. }
  destruct (H H3) as [Hs _].
  vm_compute in Hs. vm_compute. exact Hs.
Defined.

(** Within the same bounds: in the refresh pass of a served request,
    every sensor among the [N] found is attempted: an unreachable one
    keeps its stored reading and is reported on the serial line, a
    reachable one has its calibrated reading stored, whatever the state of
    the other sensors among the [N]. *)
Theorem refresh_pass_independent (env : environment) (w : sketch) :
  (numberOfOneWireDevices w ≤ 3)%nat →
  length (temperatureReadings w) = 3%nat →
  (∀ j x, (j < numberOfOneWireDevices w)%nat →
          refresh_all env 0 (numberOfOneWireDevices w) (temperatureReadings w) !! j
            = Some x → fits x) →
  ∃ w',
    respond env (true, ERR_UNKNOWN) w = Ok w'
    ∧ ∀ j a name old,
        (j < numberOfOneWireDevices w)%nat →
        tempSensors !! j = Some a →
        tempSensorNames !! j = Some name →
        temperatureReadings w !! j = Some old →
        if isConnected env a then
          temperatureReadings w' !! j = Some (calibrated j (getTempC env a))
        else
          temperatureReadings w' !! j = Some old
          ∧ ∃ before later,
              trace w' = before
                         ++ [SerialPrint sensor_error; SerialPrintln name]
                         ++ later.
Proof.
  intros Hle Hlen Hfits.
  pose proof (respond_serve env ERR_UNKNOWN w Hle Hlen Hfits) as Hr.
  set (N := numberOfOneWireDevices w) in *.
  set (final := refresh_all env 0 N (temperatureReadings w)) in *.
  set (written := ClientWrite _) in Hr.
  exists (after (set_readings final w)
            ([RequestTemperatures; responding]
             ++ concat (map (diagnostics env) (seq 0 N))
             ++ [written; ClientStop])).
  split; [exact Hr|]. clear Hr.
  intros j a name old Hj Ha Hname Hold.
  assert (Hfinal : final !! j = Some (refreshed env j old)).
  { apply refresh_all_lookup; [lia|done]. }
  unfold refreshed in Hfinal. rewrite Ha in Hfinal.
  unfold after, set_readings.
  cbn [temperatureReadings trace].
  destruct (isConnected env a) eqn:Hconn; [exact Hfinal|].
  split; [exact Hfinal|].
  assert (Hin : j ∈ seq 0 N) by (apply elem_of_seq; lia).
  apply list_elem_of_split in Hin as (l1 & l2 & Hsplit).
  assert (Hdiag : diagnostics env j
                  = [SerialPrint sensor_error; SerialPrintln name]).
  { unfold diagnostics. by rewrite Ha, Hname, Hconn. }
  exists (trace w ++ [RequestTemperatures; responding]
          ++ concat (map (diagnostics env) l1)),
         (concat (map (diagnostics env) l2) ++ [written; ClientStop]).
  rewrite Hsplit, map_app, concat_app, map_cons, concat_cons, Hdiag.
  by rewrite <- !(assoc_L (++)).
Qed.

(** The lake sensor is out of reach: its reading stays 0.0, the other two
    are stored. *)
Lemma refresh_pass_independent_witness :
  ∃ w', respond lake_down_env (true, ERR_UNKNOWN) (booted 3) = Ok w'
        ∧ temperatureReadings w'
          = [S754_zero false; SFopp (float_of 1 0); sixteenths 310].
Proof.
  assert (H2 : (numberOfOneWireDevices (booted 3) ≤ 3)%nat) by (simpl; lia).
  assert (H3 : ∀ j x, (j < numberOfOneWireDevices (booted 3))%nat →
             refresh_all lake_down_env 0
               (numberOfOneWireDevices (booted 3))
               (temperatureReadings (booted 3)) !! j = Some x → fits x).
  { intros [|[|[|j]]] x Hj; [| | |simpl in Hj; lia].
    all: intros [= <-]; vm_compute; reflexivity. }
  destruct (refresh_pass_independent lake_down_env (booted 3) H2 eq_refl H3)
    as (w' & Hw' & _).
  exists w'. split; [exact Hw'|].
  vm_compute in Hw'. injection Hw' as <-. vm_compute. reflexivity.
Defined.

(** ** Served requests that leave the bounds *)

(** C1.  The request [GET /temp HTTP/1.1] is classified Serve.  With two
    sensors found, delivering 5.0 and -1.0, the one write to the client is
    the 200 header followed by [Lake Water: 5.00000|Outside Air: -1.00000]
    and a line break, as stated.  With a fourth device found on the bus
    the loop of lines 263-281 indexes the three-entry tables at 3, and
    with a reading of -127.0, which prints as the 10 characters
    [-127.00000], [dtostrf] overruns the 10 bytes of [fltStr]: for these
    served requests no response is determined. *)
Theorem serve_leaves_bounds :
  classify zeros get_temp = Ok (true, ERR_UNKNOWN)
  ∧ outcome_of (true, ERR_UNKNOWN) = Serve
  ∧ (∃ w',
       service (sample_env None) get_temp (booted 2) = Ok w'
       ∧ trace w'
         = [ClientFlush; RequestTemperatures;
            SerialPrintln (lit "Temperature request received; responding...");
            ClientWrite
              (lit "HTTP/1.1 200 OK " ++ CRLF
               ++ lit "Content-Type: text/plain " ++ CRLF
               ++ lit "Connection: close " ++ CRLF
               ++ lit "Refresh: 5 " ++ CRLF ++ CRLF
               ++ lit "Lake Water: 5.00000|Outside Air: -1.00000" ++ CRLF);
            ClientStop])
  ∧ numberOfOneWireDevices (booted 4) = 4%nat
  ∧ service (sample_env None) get_temp (booted 4) = Undefined OutOfBounds
  ∧ tempSensors !! 0%nat = Some [0x28; 0xFF; 0xDD; 0x96; 0x36; 0x16; 0x03; 0xB9]%Z
  ∧ getTempC vanished_env [0x28; 0xFF; 0xDD; 0x96; 0x36; 0x16; 0x03; 0xB9]%Z
    = S754_finite true 16646144 (-17)
  ∧ dtostrf5 (S754_finite true 16646144 (-17)) = lit "-127.00000"
  ∧ numberOfOneWireDevices (booted 3) = 3%nat
  ∧ service vanished_env get_temp (booted 3) = Undefined OutOfBounds.
Proof.
  split; [vm_compute; reflexivity|]. split; [reflexivity|].
  split.
  { eexists. split; [vm_compute; reflexivity|]. vm_compute. reflexivity. }
  repeat split; vm_compute; reflexivity.
Qed.

(** C9.  Two devices were found at boot, the lake sensor being absent; the
    outside-air and intake sensors answer.  The refresh pass of a served
    request attempts the identities 0 and 1 only: it reports the lake
    sensor and stores -1.0 for the outside air, but the intake sensor,
    identity 2, which is reachable and delivers 20.3125, is never
    attempted: its reading stays 0.0 and nothing is printed for it.  (With
    three devices found the same pass stores 19.375 for it.)  And a lake
    sensor that delivers -127.0 makes the pass overrun [fltStr] at
    identity 0, before the other identities are attempted. *)
Theorem refresh_skips_identity :
  tempSensors !! 2%nat = Some [0x28; 0x0A; 0x62; 0xB8; 0x07; 0x00; 0x00; 0xB4]%Z
  ∧ isConnected lake_down_env [0x28; 0x0A; 0x62; 0xB8; 0x07; 0x00; 0x00; 0xB4]%Z
    = true
  ∧ getTempC lake_down_env [0x28; 0x0A; 0x62; 0xB8; 0x07; 0x00; 0x00; 0xB4]%Z
    = S754_finite false 10649600 (-19)
  ∧ numberOfOneWireDevices (booted 2) = 2%nat
  ∧ (∃ w',
       respond lake_down_env (true, ERR_UNKNOWN) (booted 2) = Ok w'
       ∧ temperatureReadings w'
         = [S754_zero false; S754_finite true 8388608 (-23); S754_zero false]
       ∧ serial_text (trace w')
         = lit "Temperature request received; responding..." ++ CRLF
           ++ lit "Error: unable to communicate with sensor Lake Water: "
           ++ CRLF)
  ∧ (∃ w',
       respond lake_down_env (true, ERR_UNKNOWN) (booted 3) = Ok w'
       ∧ temperatureReadings w'
         = [S754_zero false; S754_finite true 8388608 (-23);
            S754_finite false 10158080 (-19)])
  ∧ respond vanished_env (true, ERR_UNKNOWN) (booted 3) = Undefined OutOfBounds.
Proof.
  split; [reflexivity|]. split; [reflexivity|]. split; [vm_compute; reflexivity|].
  split; [reflexivity|].
  split.
  { eexists. split; [vm_compute; reflexivity|].
    split; vm_compute; reflexivity. }
  split.
  { eexists. split; [vm_compute; reflexivity|]. vm_compute. reflexivity. }
  vm_compute. reflexivity.
Qed.

(** ** The request buffer *)

Lemma read_request_received (pending buf : list ascii) (i : nat) :
  (i + length pending ≤ 400)%nat → (i + length pending ≤ length buf)%nat →
  let rs := read_request pending buf (Z.of_nat i) in
  rs_evalInput rs = true
  ∧ rs_buf rs = take i buf ++ pending ++ drop (i + length pending) buf.
Proof.
  revert buf i. induction pending as [|b rest IH]; intros buf i H400 Hbuf.
  - simpl. split; [done|]. by rewrite Nat.add_0_r, take_drop.
  - cbn [read_request]. unfold HTTP_BUFFER_SIZE. simpl length in *.
    destruct (Z.leb_spec 1 (400 - Z.of_nat i)); [|lia].
    replace (Z.of_nat i + 1)%Z with (Z.of_nat (S i)) by lia.
    rewrite Nat2Z.id.
    destruct (IH (<[i := b]> buf) (S i)) as [He Hb].
    { lia. } { rewrite length_insert. lia. }
    split; [done|]. rewrite Hb.
    rewrite drop_insert_lt by lia.
    rewrite (take_S_r _ _ b) by (apply list_lookup_insert_eq; lia).
    rewrite take_insert_ge by lia.
    rewrite <- (assoc_L (++)). simpl.
    by replace (S (i + length rest)) with (i + S (length rest))%nat by lia.
Qed.

Lemma classify_received (stale pending : list ascii) :
  length stale = 400%nat → (length pending ≤ 400)%nat →
  classify stale pending = parse_request (received stale pending).
Proof.
  intros Hs Hp. unfold classify.
  destruct (read_request_received pending stale 0) as [He Hb]; [lia|lia|].
  change (Z.of_nat 0) with 0%Z in *. rewrite He, Hb. by rewrite take_0.
Qed.

(** ** The string functions on a terminated buffer *)

Lemma cstring_split (l text : list ascii) :
  cstring l = Some text →
  ∃ tail, l = text ++ NUL :: tail ∧ Forall (λ c, c ≠ NUL) text.
Proof.
  revert text. induction l as [|c l IH]; intros text H; [done|].
  simpl in H. destruct (Ascii.eqb_spec c NUL) as [->|Hc].
  - injection H as <-. by exists l.
  - destruct (cstring l) as [t|]; [|done]. injection H as <-.
    destruct (IH t eq_refl) as (tail & -> & Ht).
    exists tail. split; [done|]. by constructor.
Qed.

Lemma match_at_text (needle text tail : list ascii) :
  Forall (λ c, c ≠ NUL) needle →
  match_at needle (text ++ NUL :: tail) = Ok (starts_with needle text).
Proof.
  intros Hn. revert text. induction Hn as [|n ns Hn _ IH]; intros text; [done|].
  destruct text as [|c text]; cbn [match_at starts_with app].
  - destruct (Ascii.eqb_spec NUL n); [congruence|done].
  - destruct (c =? n)%char; [apply IH|done].
Qed.

Lemma strstr_from_text (needle text tail : list ascii) (p : nat) :
  needle ≠ [] → Forall (λ c, c ≠ NUL) needle → Forall (λ c, c ≠ NUL) text →
  strstr_from (text ++ NUL :: tail) needle p
  = Ok ((λ k, (p + k)%nat) <$> first_occurrence needle text).
Proof.
  intros Hne Hn Ht. revert p. induction Ht as [|c text Hc _ IH]; intros p.
  - cbn [strstr_from app first_occurrence].
    destruct (Ascii.eqb_spec NUL NUL); [|done].
    destruct needle; [done|]. reflexivity.
  - cbn [strstr_from app]. destruct (Ascii.eqb_spec c NUL); [done|].
    change (c :: text ++ NUL :: tail) with ((c :: text) ++ NUL :: tail).
    rewrite match_at_text by done. step.
    cbn [first_occurrence]. destruct (starts_with needle (c :: text)).
    + simpl. by rewrite Nat.add_0_r.
    + rewrite IH. destruct (first_occurrence needle text); simpl; [|done].
      do 2 f_equal. lia.
Qed.

Lemma first_occurrence_bound (needle s : list ascii) (p : nat) :
  first_occurrence needle s = Some p → (p ≤ length s)%nat.
Proof.
  revert p. induction s as [|c s IH]; intros p; simpl.
  - destruct (starts_with needle []); [|done]. intros [= <-]. lia.
  - destruct (starts_with needle (c :: s)); [intros [= <-]; lia|].
    destruct (first_occurrence needle s) as [k|]; [|done].
    intros [= <-]. specialize (IH k eq_refl). lia.
Qed.

Lemma find_delim_stop (t rest : list ascii) (c : ascii) (q : nat) :
  Forall plain t → c = NUL ∨ c = SP →
  find_delim (t ++ c :: rest) SP q
  = Ok ((q + length t)%nat, negb (c =? NUL)%char).
Proof.
  intros Ht Hc. revert q. induction Ht as [|x t [Hx1 Hx2] _ IH]; intros q.
  - cbn [find_delim app length]. rewrite Nat.add_0_r.
    by destruct Hc as [->| ->].
  - cbn [find_delim app length].
    destruct (Ascii.eqb_spec x NUL); [done|].
    destruct (Ascii.eqb_spec x SP); [done|].
    rewrite IH. do 2 f_equal. lia.
Qed.

Lemma strcmp_eq_text (t s rest : list ascii) :
  Forall (λ c, c ≠ NUL) t → Forall (λ c, c ≠ NUL) s →
  strcmp_eq (t ++ NUL :: rest) s = Ok (bool_decide (t = s)).
Proof.
  intros Ht. revert s. induction Ht as [|c t Hc _ IH]; intros s Hs.
  - destruct Hs as [|x s Hx _]; cbn [strcmp_eq app]; [done|].
    destruct (Ascii.eqb_spec NUL x); [congruence|].
    by rewrite bool_decide_eq_false_2.
  - destruct Hs as [|x s Hx Hs]; cbn [strcmp_eq app].
    + destruct (Ascii.eqb_spec c NUL); [done|].
      by rewrite bool_decide_eq_false_2.
    + destruct (Ascii.eqb_spec c x) as [->|Hne].
      * rewrite IH by done. f_equal. apply bool_decide_ext. naive_solver.
      * rewrite bool_decide_eq_false_2; [done|]. naive_solver.
Qed.

Lemma split_on_nonempty (d : ascii) (s : list ascii) : split_on d s ≠ [].
Proof.
  induction s as [|c s IH]; simpl; [done|].
  destruct (c =? d)%char; [done|]. by destruct (split_on d s).
Qed.

Lemma split_on_head (d : ascii) (s t : list ascii) (ts : list (list ascii)) :
  split_on d s = t :: ts →
  Forall (λ c, c ≠ d) t
  ∧ ((s = t ∧ ts = []) ∨ (∃ s2, s = t ++ d :: s2 ∧ split_on d s2 = ts)).
Proof.
  revert t ts. induction s as [|c s IH]; intros t ts H.
  - injection H as <- <-. split; [constructor|by left].
  - cbn [split_on] in H. destruct (Ascii.eqb_spec c d) as [->|Hc].
    + injection H as <- <-. split; [constructor|]. right. by exists s.
    + destruct (split_on d s) as [|t' ts'] eqn:Hs.
      { by destruct (split_on_nonempty d s). }
      injection H as <- <-.
      destruct (IH t' ts' eq_refl) as [Ht [[-> ->]|(s2 & -> & Hs2)]].
      * split; [by constructor|by left].
      * split; [by constructor|]. right. by exists s2.
Qed.

Lemma drop_tokens (pre method path rest : list ascii) :
  drop (S (length pre + length method)) (pre ++ method ++ SP :: path ++ rest)
  = path ++ rest.
Proof.
  replace (pre ++ method ++ SP :: path ++ rest)
    with ((pre ++ method ++ [SP]) ++ path ++ rest)
    by (by rewrite <- !(assoc_L (++))).
  apply drop_app_length'. rewrite !length_app. simpl. lia.
Qed.

Lemma strsep_hit (buf : list ascii) (p q : nat) :
  find_delim (drop p buf) SP p = Ok (q, true) →
  strsep buf (Some p) SP = Ok (<[q := NUL]> buf, Some (S q), Some p).
Proof. intros H. unfold strsep. by rewrite H. Qed.

Lemma strsep_end (buf : list ascii) (p q : nat) :
  find_delim (drop p buf) SP p = Ok (q, false) →
  strsep buf (Some p) SP = Ok (buf, None, Some p).
Proof. intros H. unfold strsep. by rewrite H. Qed.

(** The classification of a buffer in which [GET] is first found at the
    end of [pre], followed by the token [method], a space, the token
    [path] and then a space or the terminator. *)
Lemma parse_request_tokens (pre method path rest : list ascii) (c : ascii) :
  Forall plain method → Forall plain path → c = NUL ∨ c = SP →
  strstr (pre ++ method ++ SP :: path ++ c :: rest) (lit "GET")
    = Ok (Some (length pre)) →
  parse_request (pre ++ method ++ SP :: path ++ c :: rest)
  = Ok (if bool_decide (path = lit "/temp") then (true, ERR_UNKNOWN)
        else (false, ERROR_NOT_TEMP_REQ)).
Proof.
  intros Hm Hp Hc Hstr.
  assert (Hpath : Forall (λ x, x ≠ NUL) path).
  { eapply Forall_impl; [exact Hp|]. by intros x [? _]. }
  assert (Htemp : Forall (λ x, x ≠ NUL) (lit "/temp")).
  { repeat constructor; done. }
  set (buf := pre ++ method ++ SP :: path ++ c :: rest) in *.
  set (q := (length pre + length method)%nat).
  unfold parse_request. rewrite Hstr. step.
  (* first strsep: the token starting at GET *)
  rewrite (strsep_hit buf (length pre) q).
  2:{ unfold buf. rewrite drop_app_length.
      by rewrite (find_delim_stop method (path ++ c :: rest) SP)
        by (done || by right). }
  step. cbv beta iota.
  (* second strsep: the token after it *)
  assert (Hd1 : drop (S q) (<[q := NUL]> buf) = path ++ c :: rest).
  { rewrite drop_insert_lt by lia. apply drop_tokens. }
  assert (Hfd : find_delim (drop (S q) (<[q := NUL]> buf)) SP (S q)
                = Ok ((S q + length path)%nat, negb (c =? NUL)%char)).
  { by rewrite Hd1, (find_delim_stop path rest c). }
  destruct Hc as [-> | ->].
  - rewrite (strsep_end _ _ _ Hfd). step. cbv beta iota.
    unfold strcmp. rewrite Hd1, strcmp_eq_text by done. step.
    by destruct (bool_decide (path = lit "/temp")).
  - rewrite (strsep_hit _ _ _ Hfd). step. cbv beta iota.
    unfold strcmp. rewrite drop_insert_ge by lia. rewrite Hd1.
    replace (S q + length path - S q)%nat with (length path + 0)%nat by lia.
    rewrite insert_app_r.
    change (<[0%nat := NUL]> (SP :: rest)) with (NUL :: rest).
    rewrite strcmp_eq_text by done. step.
    by destruct (bool_decide (path = lit "/temp")).
Qed.

Lemma parse_request_no_get (buf text : list ascii) :
  cstring buf = Some text → occurs (lit "GET") text = false →
  parse_request buf = Ok (false, ERROR_NOT_GET_REQ).
Proof.
  intros Hc Ho. destruct (cstring_split _ _ Hc) as (tail & -> & Ht).
  unfold parse_request, strstr.
  rewrite strstr_from_text; [|done|repeat constructor; done|done].
  unfold occurs in Ho.
  by destruct (first_occurrence (lit "GET") text).
Qed.

Lemma parse_request_path (buf text method path : list ascii) (p : nat)
  (more : list (list ascii)) :
  cstring buf = Some text →
  first_occurrence (lit "GET") text = Some p →
  split_on SP (drop p text) = method :: path :: more →
  parse_request buf
  = Ok (if bool_decide (path = lit "/temp") then (true, ERR_UNKNOWN)
        else (false, ERROR_NOT_TEMP_REQ)).
Proof.
  intros Hc Hocc Hsplit.
  destruct (cstring_split _ _ Hc) as (tail & -> & Ht).
  pose proof (first_occurrence_bound _ _ _ Hocc) as Hp.
  destruct (split_on_head _ _ _ _ Hsplit) as [Hm [[_ [=]]|(s2 & Hdrop & Hs2)]].
  set (pre := take p text).
  assert (Hpre : length pre = p) by (unfold pre; rewrite length_take; lia).
  assert (Htext : text = pre ++ method ++ SP :: s2).
  { unfold pre. by rewrite <- Hdrop, take_drop. }
  assert (Hstr : strstr (text ++ NUL :: tail) (lit "GET")
                 = Ok (Some (length pre))).
  { unfold strstr. rewrite strstr_from_text; [|done|repeat constructor; done|done].
    rewrite Hocc, Hpre. done. }
  clearbody pre. clear Hc Hocc Hsplit Hdrop Hp. subst text.
  apply Forall_app in Ht as [_ Ht]. apply Forall_app in Ht as [Hm0 Ht].
  apply Forall_cons in Ht as [_ Hs20].
  assert (Hplain : ∀ t, Forall (λ x, x ≠ NUL) t → Forall (λ x, x ≠ SP) t →
                        Forall plain t).
  { intros t H1 H2. apply Forall_forall. intros x Hx. split.
    - by apply (proj1 (Forall_forall _ _) H1).
    - by apply (proj1 (Forall_forall _ _) H2). }
  revert Hstr. rewrite <- !(assoc_L (++)). cbn [app].
  destruct (split_on_head _ _ _ _ Hs2) as [Hpa [[-> ->]|(s3 & -> & _)]].
  - intros Hstr. apply parse_request_tokens; auto.
  - apply Forall_app in Hs20 as [Hpa0 _].
    rewrite <- !(assoc_L (++)). cbn [app]. intros Hstr.
    apply parse_request_tokens; auto.
Qed.

(** ** Classified requests *)

Lemma service_error (env : environment) (pending : list ascii) (w : sketch)
  (e : error) :
  classify (stale env) pending = Ok (false, e) →
  service env pending w
  = Ok (after w [ClientFlush; ClientWrite (error_response e); ClientStop]).
Proof.
  intros Hc. unfold service. rewrite Hc. step. unfold respond.
  by rewrite !emit_after, !after_after.
Qed.

(** C3, as the sketch has it.  A request of at most 400 bytes such that
    the text in the buffer, up to its first zero byte, holds [GET]
    nowhere: the outcome is NotGetMethod, the one write to the client is
    the 405 response, the connection is closed, and no sensor is refreshed
    nor any reading changed. *)
Theorem no_get_rejected
  (env : environment) (pending : list ascii) (w : sketch) (text : list ascii) :
  length (stale env) = 400%nat →
  (length pending ≤ 400)%nat →
  cstring (received (stale env) pending) = Some text →
  occurs (lit "GET") text = false →
  classify (stale env) pending = Ok (false, ERROR_NOT_GET_REQ)
  ∧ outcome_of (false, ERROR_NOT_GET_REQ) = NotGetMethod
  ∧ ∃ w',
      service env pending w = Ok w'
      ∧ trace w' = trace w ++
          [ClientFlush;
           ClientWrite (lit "HTTP/1.1 405 Method Not Allowed " ++ CRLF ++ CRLF);
           ClientStop]
      ∧ temperatureReadings w' = temperatureReadings w
      ∧ count is_refresh (trace w') = count is_refresh (trace w).
Proof.
  intros Hs Hp Hc Ho.
  assert (Hcl : classify (stale env) pending = Ok (false, ERROR_NOT_GET_REQ)).
  { rewrite classify_received by done. by eapply parse_request_no_get. }
  split; [done|]. split; [done|].
  eexists. split; [by apply service_error|].
  split; [done|]. split; [done|].
  cbn [trace after]. rewrite count_app.
  assert (count is_refresh
            [ClientFlush; ClientWrite (error_response ERROR_NOT_GET_REQ);
             ClientStop] = 0%nat) as -> by reflexivity.
  lia.
Qed.

Lemma no_get_rejected_witness :
  classify zeros post_temp = Ok (false, ERROR_NOT_GET_REQ).
Proof.
  apply (no_get_rejected (sample_env None) post_temp (booted 3)
           (lit "POST /temp HTTP/1.1" ++ CRLF ++ CRLF)).
  - reflexivity.
  - vm_compute. lia.
  - vm_compute. reflexivity.
  - vm_compute. reflexivity.
Defined.

(** C3, as stated, fails: the well-formed request [POST /GET HTTP/1.1] has
    the method token [POST]; its outcome is NotTempPath and it is answered
    with the 501 response, not the 405 one. *)
Lemma non_get_method_counterexample :
  post_get = request_line (lit "POST") (lit "/GET")
  ∧ method_token post_get = lit "POST"
  ∧ lit "POST" ≠ lit "GET"
  ∧ classify zeros post_get = Ok (false, ERROR_NOT_TEMP_REQ)
  ∧ outcome_of (false, ERROR_NOT_TEMP_REQ) ≠ NotGetMethod
  ∧ service (sample_env None) post_get (booted 3)
    = Ok (after (booted 3) [ClientFlush; ClientWrite response_501; ClientStop])
  ∧ response_501 ≠ response_405.
Proof.
  repeat split; try (vm_compute; reflexivity); vm_compute; discriminate.
Qed.

(** C4.  The request [POST /GET /temp HTTP/1.1] holds [GET], and its
    second token between spaces, the path, is [/GET], not [/temp].  The
    sketch splits the text from the first [GET] it finds, not from the
    start of the request, takes [/temp] for the path and serves the
    request: the sensors are refreshed and the 200 response is written,
    not the 501 one.  Likewise the 8 bytes [GET /tem], whose path is
    [/tem], are served when the buffer still holds [PUT /temp HTTP/1.1]
    from the request before, no terminator being written after the bytes
    read. *)
Theorem wrong_path_served :
  occurs (lit "GET") post_get_temp = true
  ∧ path_token post_get_temp = lit "/GET"
  ∧ lit "/GET" ≠ lit "/temp"
  ∧ classify zeros post_get_temp = Ok (true, ERR_UNKNOWN)
  ∧ outcome_of (true, ERR_UNKNOWN) ≠ NotTempPath
  ∧ (∃ w',
       service (sample_env None) post_get_temp (booted 2) = Ok w'
       ∧ trace w'
         = [ClientFlush; RequestTemperatures;
            SerialPrintln (lit "Temperature request received; responding...");
            ClientWrite
              (lit "HTTP/1.1 200 OK " ++ CRLF
               ++ lit "Content-Type: text/plain " ++ CRLF
               ++ lit "Connection: close " ++ CRLF
               ++ lit "Refresh: 5 " ++ CRLF ++ CRLF
               ++ lit "Lake Water: 5.00000|Outside Air: -1.00000" ++ CRLF);
            ClientStop])
  ∧ occurs (lit "GET") (lit "GET /tem") = true
  ∧ path_token (lit "GET /tem") = lit "/tem"
  ∧ classify (received zeros (request_line (lit "PUT") (lit "/temp")))
             (lit "GET /tem")
    = Ok (true, ERR_UNKNOWN).
Proof.
  split; [vm_compute; reflexivity|]. split; [vm_compute; reflexivity|].
  split; [vm_compute; discriminate|]. split; [vm_compute; reflexivity|].
  split; [vm_compute; discriminate|].
  split.
  { eexists. split; [vm_compute; reflexivity|]. vm_compute. reflexivity. }
  repeat split; vm_compute; reflexivity.
Qed.

(** The text from the first [GET] on decides: the request is served
    exactly when the token after it is [/temp]. *)
Lemma served_iff_temp
  (env : environment) (pending text method path : list ascii) (p : nat)
  (more : list (list ascii)) :
  length (stale env) = 400%nat →
  (length pending ≤ 400)%nat →
  cstring (received (stale env) pending) = Some text →
  first_occurrence (lit "GET") text = Some p →
  split_on SP (drop p text) = method :: path :: more →
  classify (stale env) pending
  = Ok (if bool_decide (path = lit "/temp") then (true, ERR_UNKNOWN)
        else (false, ERROR_NOT_TEMP_REQ)).
Proof.
  intros Hs Hp Hc Hocc Hsplit.
  rewrite classify_received by done. by eapply parse_request_path.
Qed.

(** ** Requests that leave defined behaviour *)

(** A request that fills the buffer leaves nothing of the old contents. *)
Lemma received_full (stale pending : list ascii) :
  length stale = 400%nat → length pending = 400%nat →
  received stale pending = pending.
Proof.
  intros Hs Hp. unfold received.
  rewrite drop_ge by lia. by rewrite (right_id_L [] (++)).
Qed.

Lemma full_buffer_undefined (stale : list ascii) :
  length stale = 400%nat →
  classify stale get_full = Undefined OutOfBounds
  ∧ classify stale (replicate 400 "A"%char) = Undefined OutOfBounds.
Proof.
  intros Hs. split.
  - rewrite classify_received, received_full by (done || (vm_compute; lia)).
    vm_compute. reflexivity.
  - rewrite classify_received, received_full by (done || (vm_compute; lia)).
    vm_compute. reflexivity.
Qed.

(** C5.  Requests on which the sketch leaves defined behaviour, so that no
    outcome is reached and no response is determined: [GET] with no space
    after it hands a null pointer to [strcmp]; 400 bytes without a zero
    byte make [strstr], or [strsep] after it, read past the buffer. *)
Theorem unclassified_requests :
  classify zeros get_bare = Undefined NullPointer
  ∧ loop (sample_env (Some get_bare)) (booted 3) = Undefined NullPointer
  ∧ length get_full = 400%nat
  ∧ classify zeros get_full = Undefined OutOfBounds
  ∧ classify zeros (replicate 400 "A"%char) = Undefined OutOfBounds
  ∧ loop (sample_env (Some get_full)) (booted 3) = Undefined OutOfBounds.
Proof. repeat split; vm_compute; reflexivity. Qed.

(** ** The model at work *)

Example classify_examples :
  classify zeros get_temp = Ok (true, ERR_UNKNOWN)
  ∧ classify zeros post_temp = Ok (false, ERROR_NOT_GET_REQ)
  ∧ classify zeros get_other = Ok (false, ERROR_NOT_TEMP_REQ)
  ∧ classify zeros (replicate 401 "A"%char) = Ok (false, ERR_BUF_OVERFLOW).
Proof. repeat split; vm_compute; reflexivity. Qed.

Example dtostrf5_examples :
  dtostrf5 (float_of 5 0) = lit "5.00000"
  ∧ dtostrf5 (SFopp (float_of 1 0)) = lit "-1.00000"
  ∧ dtostrf5 (sixteenths (-881)) = lit "-55.06250"
  ∧ dtostrf5 (sixteenths 2000) = lit "125.00000"
  ∧ dtostrf5 (S754_zero false) = lit "0.00000".
Proof. repeat split; vm_compute; reflexivity. Qed.

(** The buffer keeps what an earlier request left in it.  After
    [PUT /temp HTTP/1.1], which is answered 405 and leaves the buffer as
    read, the 8 bytes [GET /tem] are served. *)
Example stale_bytes_are_parsed :
  classify (received zeros (request_line (lit "PUT") (lit "/temp")))
           (lit "GET /tem")
  = Ok (true, ERR_UNKNOWN).
Proof. vm_compute. reflexivity. Qed.

(** * Further properties of the sketch *)

Tactic Notation "bind_name" hyp(H) "as" ident(a) ident(Ha) :=
  apply bind_Ok in H as (a & Ha & H).

(** ** What a refresh leaves alone *)

Lemma serial_frame_refl (w : sketch) : serial_frame w w.
Proof.
  repeat split. exists []. by rewrite (right_id_L [] (++)).
Qed.

Lemma serial_frame_trans (w1 w2 w3 : sketch) :
  serial_frame w1 w2 → serial_frame w2 w3 → serial_frame w1 w3.
Proof.
  intros (N1 & T1 & L1 & e1 & H1 & S1) (N2 & T2 & L2 & e2 & H2 & S2).
  repeat split; try congruence.
  exists (e1 ++ e2). split.
  - by rewrite H2, H1, (assoc_L (++)).
  - by apply Forall_app.
Qed.

Lemma serial_frame_saveTemperature (env : environment) (i : nat) (w w' : sketch) :
  saveTemperature env i w = Ok w' → serial_frame w w'.
Proof.
  unfold saveTemperature. intros H. bind_inv H.
  destruct (isConnected env a).
  - bind_inv H. injection H as <-.
    unfold store in Ha0.
    destruct (i <? length (temperatureReadings w))%nat; [|done].
    injection Ha0 as <-.
    repeat split; simpl; [by rewrite length_insert|].
    exists []. by rewrite (right_id_L [] (++)).
  - bind_inv H. injection H as <-.
    repeat split. eexists [_; _]. simpl.
    rewrite <- (assoc_L (++)). split; [done|]. by repeat constructor.
Qed.

Lemma serial_frame_sensor_loop (env : environment) (n i : nat) (w w' : sketch)
  (buf buf' : list ascii) :
  sensor_loop env n i w buf = Ok (w', buf') → serial_frame w w'.
Proof.
  revert i w buf. induction n as [|n IH]; intros i w buf H.
  - injection H as <- <-. apply serial_frame_refl.
  - cbn [sensor_loop] in H. do 7 bind_inv H.
    eapply serial_frame_trans;
      [by eapply serial_frame_saveTemperature|by eapply IH].
Qed.

Lemma read_request_error (pending buf : list ascii) (idx : Z) :
  rs_error_type (read_request pending buf idx)
  = if rs_evalInput (read_request pending buf idx) then ERR_UNKNOWN
    else ERR_BUF_OVERFLOW.
Proof.
  revert buf idx. induction pending as [|b rest IH]; intros buf idx; [done|].
  cbn [read_request].
  destruct (1 <=? HTTP_BUFFER_SIZE - idx)%Z; [apply IH|done].
Qed.

Lemma parse_request_cases (buf : list ascii) (c : bool * error) :
  parse_request buf = Ok c →
  c = (true, ERR_UNKNOWN) ∨ c = (false, ERROR_NOT_TEMP_REQ)
  ∨ c = (false, ERROR_NOT_GET_REQ).
Proof.
  unfold parse_request. intros H. bind_inv H.
  destruct a as [p|].
  - bind_inv H. destruct a as [[buf1 gettype1] tok].
    bind_inv H. destruct a as [[buf2 gettype2] addr].
    bind_inv H. destruct a; injection H as <-; auto.
  - injection H as <-. auto.
Qed.

Lemma classify_cases (stale pending : list ascii) (c : bool * error) :
  classify stale pending = Ok c →
  c = (true, ERR_UNKNOWN) ∨ c = (false, ERROR_NOT_TEMP_REQ)
  ∨ c = (false, ERROR_NOT_GET_REQ) ∨ c = (false, ERR_BUF_OVERFLOW).
Proof.
  unfold classify. intros H.
  pose proof (read_request_error pending stale 0) as He.
  destruct (rs_evalInput (read_request pending stale 0)).
  - destruct (parse_request_cases _ _ H) as [->|[->| ->]]; auto.
  - injection H as <-. rewrite He. auto.
Qed.

(** X1.  No request is classified Unknown: whenever classification
    completes without serving, the error is one of overflow, wrong method
    and wrong path, the reply is the 431, 405 or 501 text, never the 520
    one, and the sensors are left alone. *)
Theorem unknown_never_reported
  (env : environment) (pending : list ascii) (w : sketch) (c : bool * error) :
  classify (stale env) pending = Ok c →
  outcome_of c ≠ Unknown
  ∧ (fst c = false →
     service env pending w
     = Ok (after w [ClientFlush; ClientWrite (error_response (snd c)); ClientStop])
     ∧ error_response (snd c) ∈ [response_431; response_405; response_501]
     ∧ error_response (snd c) ≠ response_520).
Proof.
  intros Hc.
  destruct (classify_cases _ _ _ Hc) as [->|[->|[->| ->]]];
    (split; [done|]); intros Hf; try done.
  all: split; [by apply service_error|].
  all: cbn [snd error_response].
  all: split; [rewrite !elem_of_cons; auto|vm_compute; discriminate].
Qed.

Lemma unknown_never_reported_witness :
  outcome_of (false, ERROR_NOT_TEMP_REQ) ≠ Unknown.
Proof.
  apply (unknown_never_reported (sample_env None) get_other (booted 3)
           (false, ERROR_NOT_TEMP_REQ)).
  vm_compute. reflexivity.
Defined.

(** X2.  Whenever servicing a client completes, its events are the flush,
    then either nothing (an error reply) or the refresh request, the
    serial message of line 256 and further serial output only, then one
    write to the client and the close, in this order: every serviced
    client gets exactly one reply and is disconnected. *)
Theorem service_replies_once
  (env : environment) (pending : list ascii) (w w' : sketch) :
  service env pending w = Ok w' →
  ∃ work bytes,
    trace w' = trace w ++ [ClientFlush] ++ work ++ [ClientWrite bytes; ClientStop]
    ∧ (work = []
       ∨ ∃ printed,
           work = [RequestTemperatures;
                   SerialPrintln
                     (lit "Temperature request received; responding...")]
                  ++ printed
           ∧ Forall (λ e, is_serial e = true) printed)
    ∧ Forall (λ e, is_client_event e = false) work.
Proof.
  unfold service. intros H. bind_name H as c Hc. unfold respond in H.
  destruct c as [[] e].
  - bind_name H as hdr Hhdr. bind_name H as r Hloop. destruct r as [w1 buf1].
    bind_name H as bytes Hbytes. injection H as <-.
    apply serial_frame_sensor_loop in Hloop as (_ & _ & _ & evs & Ht & Hs).
    exists ([RequestTemperatures; responding] ++ evs), bytes.
    split; [|split].
    + cbn [trace emit] in *. rewrite Ht. unfold responding.
      by rewrite <- !(assoc_L (++)).
    + right. by exists evs.
    + apply Forall_app. split; [by repeat constructor|].
      eapply Forall_impl; [exact Hs|]. by intros [].
  - injection H as <-. exists [], (error_response e).
    split; [|split; [by left|constructor]].
    cbn [trace emit]. by rewrite <- !(assoc_L (++)).
Qed.

Lemma service_replies_once_witness :
  ∃ work bytes,
    trace (after (booted 3) [ClientFlush; ClientWrite response_405; ClientStop])
    = trace (booted 3) ++ [ClientFlush] ++ work ++ [ClientWrite bytes; ClientStop]
    ∧ (work = []
       ∨ ∃ printed,
           work = [RequestTemperatures;
                   SerialPrintln
                     (lit "Temperature request received; responding...")]
                  ++ printed
           ∧ Forall (λ e, is_serial e = true) printed)
    ∧ Forall (λ e, is_client_event e = false) work.
Proof.
  apply (service_replies_once (sample_env None) post_temp (booted 3)).
  vm_compute. reflexivity.
Defined.

Lemma serial_frame_after (w : sketch) (e : event) :
  is_serial e = true → serial_frame w (emit e w).
Proof.
  intros He. repeat split. exists [e]. split; [done|]. by repeat constructor.
Qed.

(** X3.  An iteration of [loop] that completes keeps the number of devices
    and the number of stored readings, only appends to the trace, and
    leaves [mesh_timer] alone unless the connectivity check ran, in which
    case it is the clock read at line 187. *)
Theorem loop_keeps_globals (env : environment) (w w' : sketch) :
  loop env w = Ok w' →
  numberOfOneWireDevices w' = numberOfOneWireDevices w
  ∧ length (temperatureReadings w') = length (temperatureReadings w)
  ∧ mesh_timer w' = (if mesh_due env w then millis_set env else mesh_timer w)
  ∧ ∃ evs, trace w' = trace w ++ evs.
Proof.
  unfold loop. intros H. bind_name H as a Ha. injection H as <-.
  assert (Hm : numberOfOneWireDevices (mesh_check env w) = numberOfOneWireDevices w
               ∧ temperatureReadings (mesh_check env w) = temperatureReadings w
               ∧ mesh_timer (mesh_check env w)
                 = (if mesh_due env w then millis_set env else mesh_timer w)
               ∧ ∃ evs, trace (mesh_check env w) = trace w ++ evs).
  { unfold mesh_check. destruct (mesh_due env w).
    - destruct (checkConnection env); simpl; repeat split;
        eexists; rewrite <- ?(assoc_L (++)); reflexivity.
    - repeat split. exists []. by rewrite (right_id_L [] (++)). }
  destruct Hm as (HN & HR & HT & evm & Hevm).
  assert (Hs : numberOfOneWireDevices a = numberOfOneWireDevices (mesh_check env w)
               ∧ length (temperatureReadings a)
                 = length (temperatureReadings (mesh_check env w))
               ∧ mesh_timer a = mesh_timer (mesh_check env w)
               ∧ ∃ evs, trace a = trace (mesh_check env w) ++ evs).
  { destruct (available env) as [pending|].
    - unfold service in Ha. bind_name Ha as c Hc. unfold respond in Ha.
      destruct c as [[] e].
      + bind_name Ha as hdr Hhdr. bind_name Ha as r Hloop. destruct r as [w1 buf1].
        bind_name Ha as bytes Hbytes. injection Ha as <-.
        apply serial_frame_sensor_loop in Hloop as (N1 & T1 & L1 & evs & Ht & _).
        cbn [numberOfOneWireDevices temperatureReadings mesh_timer trace emit] in *.
        repeat split; try done.
        eexists. rewrite Ht, <- !(assoc_L (++)). reflexivity.
      + injection Ha as <-. repeat split.
        eexists. cbn [trace emit]. rewrite <- !(assoc_L (++)). reflexivity.
    - injection Ha as <-. repeat split.
      exists []. by rewrite (right_id_L [] (++)). }
  destruct Hs as (HN' & HR' & HT' & evs & Hevs).
  assert (Hw : ∀ x : sketch,
            numberOfOneWireDevices
              (if negb (failureDetected env) then emit WdtReset x else x)
            = numberOfOneWireDevices x
            ∧ temperatureReadings
                (if negb (failureDetected env) then emit WdtReset x else x)
              = temperatureReadings x
            ∧ mesh_timer
                (if negb (failureDetected env) then emit WdtReset x else x)
              = mesh_timer x
            ∧ ∃ e, trace
                     (if negb (failureDetected env) then emit WdtReset x else x)
                   = trace x ++ e).
  { intros x. destruct (failureDetected env); simpl; repeat split.
    - exists []. by rewrite (right_id_L [] (++)).
    - by eexists. }
  destruct (Hw a) as (HN2 & HR2 & HT2 & e2 & He2).
  split; [congruence|]. split; [congruence|]. split; [congruence|].
  exists (evm ++ evs ++ e2). rewrite He2, Hevs, Hevm.
  by rewrite <- !(assoc_L (++)).
Qed.

Lemma loop_keeps_globals_witness :
  ∃ w', loop (sample_env (Some get_temp)) (booted 3) = Ok w'
        ∧ numberOfOneWireDevices w' = 3%nat
        ∧ length (temperatureReadings w') = 3%nat
        ∧ mesh_timer w' = 20001%Z.
Proof.
  assert (H : ∃ w', loop (sample_env (Some get_temp)) (booted 3) = Ok w').
  { eexists. vm_compute. reflexivity. }
  destruct H as [w' Hw']. exists w'. split; [exact Hw'|].
  destruct (loop_keeps_globals _ _ _ Hw') as (H1 & H2 & H3 & _).
  repeat split; assumption.
Defined.

(** ** Requests within the buffer *)

Lemma read_request_all (pending buf : list ascii) (i : nat) :
  (i + length pending ≤ 400)%nat →
  let rs := read_request pending buf (Z.of_nat i) in
  rs_pending rs = [] ∧ rs_idx rs = Z.of_nat (i + length pending)
  ∧ rs_error_type rs = ERR_UNKNOWN.
Proof.
  revert buf i. induction pending as [|b rest IH]; intros buf i H400.
  - simpl. repeat split. f_equal. lia.
  - cbn [read_request]. unfold HTTP_BUFFER_SIZE. simpl length in *.
    destruct (Z.leb_spec 1 (400 - Z.of_nat i)); [|lia].
    replace (Z.of_nat i + 1)%Z with (Z.of_nat (S i)) by lia.
    destruct (IH (<[Z.to_nat (Z.of_nat i) := b]> buf) (S i)) as (H1 & H2 & H3);
      [lia|].
    repeat split; try done. rewrite H2. f_equal. lia.
Qed.

(** X4.  A request of at most 400 bytes, 400 included, is read whole and
    is not an overflow: nothing is left with the client, the index ends at
    the length of the request, and the buffer holds the request followed
    by the bytes it held before beyond that length. *)
Theorem request_within_capacity (stale pending : list ascii) :
  length stale = 400%nat →
  (length pending ≤ 400)%nat →
  read_request pending stale 0
  = {| rs_pending := [];
       rs_buf := pending ++ drop (length pending) stale;
       rs_idx := Z.of_nat (length pending);
       rs_evalInput := true;
       rs_error_type := ERR_UNKNOWN |}.
Proof.
  intros Hs Hp.
  destruct (read_request_all pending stale 0) as (H1 & H2 & H3); [lia|].
  destruct (read_request_received pending stale 0) as [H4 H5]; [lia|lia|].
  change (Z.of_nat 0) with 0%Z in *. rewrite take_0 in H5.
  destruct (read_request pending stale 0); simpl in *. by subst.
Qed.

Lemma request_within_capacity_witness :
  rs_evalInput (read_request (replicate 400 "A"%char) zeros 0) = true.
Proof.
  rewrite (request_within_capacity zeros (replicate 400 "A"%char));
    [reflexivity|reflexivity|vm_compute; lia].
Defined.

Lemma plain_GET : Forall plain (lit "GET").
Proof. repeat constructor; done. Qed.

(** X5.  A request of at most 400 bytes that starts with [GET], a space,
    a path free of spaces and zero bytes, and a space is served when the
    path is [/temp] and answered 501 otherwise, whatever follows and
    whatever the buffer held before. *)
Theorem get_line_decides (stale path rest : list ascii) :
  length stale = 400%nat →
  Forall plain path →
  (length (lit "GET " ++ path ++ SP :: rest) ≤ 400)%nat →
  classify stale (lit "GET " ++ path ++ SP :: rest)
  = Ok (if bool_decide (path = lit "/temp") then (true, ERR_UNKNOWN)
        else (false, ERROR_NOT_TEMP_REQ)).
Proof.
  intros Hs Hp Hlen.
  rewrite classify_received by done. unfold received.
  set (tail := drop _ stale).
  replace ((lit "GET " ++ path ++ SP :: rest) ++ tail)
    with ([] ++ lit "GET" ++ SP :: path ++ SP :: (rest ++ tail)).
  2:{ cbn [lit list_ascii_of_string app]. rewrite <- !(assoc_L (++)). done. }
  apply parse_request_tokens; [apply plain_GET|done|by right|].
  reflexivity.
Qed.

Lemma get_line_decides_witness :
  classify zeros (lit "GET " ++ lit "/temp" ++ SP :: lit "HTTP/1.1")
  = Ok (true, ERR_UNKNOWN).
Proof.
  apply (get_line_decides zeros (lit "/temp") (lit "HTTP/1.1")).
  - reflexivity.
  - repeat constructor; done.
  - vm_compute. lia.
Defined.

(** ** More devices than known sensors *)

Lemma sensor_loop_beyond_tables (env : environment) (n i : nat) (w : sketch)
  (buf : list ascii) :
  (i ≤ 3 < i + n)%nat → defined (sensor_loop env n i w buf) = false.
Proof.
  revert i w buf. induction n as [|n IH]; intros i w buf Hi; [lia|].
  cbn [sensor_loop].
  destruct (decide (i = 3)) as [->|Hne].
  - reflexivity.
  - repeat match goal with
           | |- defined (?m ≫= _) = false =>
               destruct m; [rewrite bind_Ok_l; cbv beta|reflexivity]
           end.
    apply IH. lia.
Qed.

Lemma respond_beyond_tables (env : environment) (e : error) (w : sketch) :
  (3 < numberOfOneWireDevices w)%nat →
  defined (respond env (true, e) w) = false.
Proof.
  intros HN. unfold respond.
  destruct (strcat [] header_200) as [hdr|]; [rewrite bind_Ok_l; cbv beta|done].
  cbn [numberOfOneWireDevices emit].
  pose proof (sensor_loop_beyond_tables env (numberOfOneWireDevices w) 0
                (emit (SerialPrintln
                         (lit "Temperature request received; responding..."))
                   (emit RequestTemperatures w)) hdr) as Hl.
  destruct (sensor_loop _ _ _ _ _); [|done].
  discriminate Hl. lia.
Qed.

Lemma loop_beyond_tables
  (env : environment) (pending : list ascii) (w : sketch) (e : error) :
  (3 < numberOfOneWireDevices w)%nat →
  available env = Some pending →
  classify (stale env) pending = Ok (true, e) →
  defined (loop env w) = false.
Proof.
  intros HN Hav Hc. unfold loop. rewrite Hav.
  assert (HNm : numberOfOneWireDevices (mesh_check env w) = numberOfOneWireDevices w).
  { unfold mesh_check. destruct (mesh_due env w); [|done].
    by destruct (checkConnection env). }
  unfold service. rewrite Hc, bind_Ok_l.
  pose proof (respond_beyond_tables env e (emit ClientFlush (mesh_check env w)))
    as Hr.
  destruct (respond env (true, e) (emit ClientFlush (mesh_check env w))); [|done].
  discriminate Hr. simpl. lia.
Qed.

(** X6.  When more than three devices were found on the bus, no request
    that is classified Serve gets a defined reply: the refresh loop runs
    past the three entries of [tempSensors] and [tempSensorNames]. *)
Theorem too_many_devices
  (env : environment) (pending : list ascii) (w : sketch) (e : error) :
  (3 < numberOfOneWireDevices w)%nat →
  classify (stale env) pending = Ok (true, e) →
  defined (service env pending w) = false
  ∧ (available env = Some pending → defined (loop env w) = false).
Proof.
  intros HN Hc. split.
  - unfold service. rewrite Hc, bind_Ok_l.
    apply respond_beyond_tables. simpl. lia.
  - intros Hav. by eapply loop_beyond_tables.
Qed.

Lemma too_many_devices_witness :
  defined (service (sample_env None) get_temp (booted 4)) = false.
Proof.
  apply (too_many_devices (sample_env None) get_temp (booted 4) ERR_UNKNOWN).
  - simpl. lia.
  - vm_compute. reflexivity.
Defined.

(** ** [saveTemperature] alone *)

(** X7.  With its three readings in place, [saveTemperature] is out of
    bounds for a sensor index of 3 or more.  For an index below 3 it
    returns a state in which no reading but that of its own sensor has
    changed; when the sensor answers, that reading is the raw one (less
    0.9375 for sensor 2) and nothing is printed; when it does not, no
    reading has changed and the serial line got the error message
    followed by the name of the sensor. *)
Theorem saveTemperature_own_slot (env : environment) (i : nat) (w : sketch) :
  length (temperatureReadings w) = 3%nat →
  ((3 ≤ i)%nat → saveTemperature env i w = Undefined OutOfBounds)
  ∧ ((i < 3)%nat →
     ∃ a name w',
       tempSensors !! i = Some a ∧ tempSensorNames !! i = Some name
       ∧ saveTemperature env i w = Ok w'
       ∧ (∀ j, j ≠ i → temperatureReadings w' !! j = temperatureReadings w !! j)
       ∧ length (temperatureReadings w') = 3%nat
       ∧ (trace w' = trace w ∨ temperatureReadings w' = temperatureReadings w)
       ∧ if isConnected env a then
           trace w' = trace w
           ∧ temperatureReadings w' !! i
             = Some (if decide (i = 2%nat)
                     then SFsub 24 128 (getTempC env a)
                            (S754_finite false 15728640 (-24))
                     else getTempC env a)
         else
           temperatureReadings w' = temperatureReadings w
           ∧ trace w' = trace w
               ++ [SerialPrint (lit "Error: unable to communicate with sensor ");
                   SerialPrintln name]).
Proof.
  intros Hlen. split.
  - intros Hi. unfold saveTemperature, index.
    rewrite (lookup_ge_None_2 tempSensors i); [done|simpl; lia].
  - intros Hi.
    destruct (known_sensor i Hi) as (a & name & Ha & Hname & _).
    destruct (lookup_lt_is_Some_2 (temperatureReadings w) i) as [old Hold]; [lia|].
    exists a, name,
      (after (set_readings (refresh_one env (temperatureReadings w) i) w)
         (diagnostics env i)).
    split; [done|]. split; [done|].
    split; [by apply saveTemperature_ok|].
    cbn [temperatureReadings trace after set_readings].
    split; [intros j Hj; by apply refresh_one_lookup_ne|].
    split; [by rewrite refresh_one_length|].
    pose proof (refresh_one_lookup env _ _ _ Hold) as Hst.
    unfold diagnostics, refresh_one, refreshed, calibrated in *.
    rewrite Ha, Hname, Hold in *.
    destruct (isConnected env a).
    + rewrite (right_id_L [] (++)). split; [by left|]. split; [done|exact Hst].
    + rewrite list_insert_id by done. split; [by right|]. by split.
Qed.

Lemma saveTemperature_own_slot_witness :
  saveTemperature (sample_env None) 3 (booted 3) = Undefined OutOfBounds.
Proof.
  apply (saveTemperature_own_slot (sample_env None) 3 (booted 3));
    [reflexivity|lia].
Defined.

(** ** The connectivity check over two iterations *)

(** X8.  After a connectivity check that ran, a second one at most 15000
    ms later (by the clock, which may have wrapped) changes nothing: no
    probe, no LED write, the same [mesh_timer]. *)
Theorem mesh_check_not_repeated (env1 env2 : environment) (w : sketch) (d : Z) :
  mesh_due env1 w = true →
  (0 ≤ d ≤ MESH_CHECK_INTERVAL)%Z →
  millis_test env2 = ((millis_set env1 + d) mod 2 ^ 32)%Z →
  mesh_check env2 (mesh_check env1 w) = mesh_check env1 w.
Proof.
  intros Hdue Hd Hnow.
  assert (Ht : mesh_timer (mesh_check env1 w) = millis_set env1).
  { unfold mesh_check. rewrite Hdue. by destruct (checkConnection env1). }
  unfold mesh_check at 1. unfold mesh_due at 1.
  rewrite Ht, Hnow, sub32_elapsed by (unfold MESH_CHECK_INTERVAL in Hd; lia).
  by destruct (Z.ltb_spec MESH_CHECK_INTERVAL d); [lia|].
Qed.

Lemma mesh_check_not_repeated_witness :
  mesh_check later_env (mesh_check (sample_env None) (booted 3))
  = mesh_check (sample_env None) (booted 3).
Proof.
  apply (mesh_check_not_repeated (sample_env None) later_env (booted 3) 15000).
  - reflexivity.
  - unfold MESH_CHECK_INTERVAL. lia.
  - reflexivity.
Defined.

(** ** Readings in the range of the sensors *)

Lemma in_range_fits (x : float) : in_range x → fits x.
Proof.
  intros (k & Hk & ->).
  assert (Hall : forallb (λ k, (Z.of_nat (length (dtostrf5 (sixteenths k)))
                                <? FLTSTR_SIZE)%Z)
                   (seqZ (-895) 2896) = true) by (vm_compute; reflexivity).
  rewrite forallb_forall in Hall. unfold fits. apply Z.ltb_lt, Hall.
  apply list_elem_of_In, elem_of_seqZ. lia.
Qed.

Lemma correction_exact (k : Z) :
  (-880 ≤ k ≤ 2000)%Z → fsub (sixteenths k) correction = sixteenths (k - 15).
Proof.
  intros Hk.
  assert (Hall : forallb (λ k, bool_decide
                     (fsub (sixteenths k) correction = sixteenths (k - 15)))
                   (seqZ (-880) 2881) = true) by (vm_compute; reflexivity).
  rewrite forallb_forall in Hall.
  specialize (Hall k). rewrite bool_decide_eq_true in Hall. apply Hall.
  apply list_elem_of_In, elem_of_seqZ. lia.
Qed.

Lemma refreshed_in_range (env : environment) (i : nat) (old : float) :
  bus_in_range env → in_range old → in_range (refreshed env i old).
Proof.
  intros Hbus Hold. unfold refreshed.
  destruct (tempSensors !! i) as [a|]; [|done].
  destruct (isConnected env a); [|done].
  destruct (Hbus a) as (k & Hk & ->). unfold calibrated.
  destruct (decide (i = 2%nat)).
  - rewrite correction_exact by done. exists (k - 15)%Z. split; [lia|done].
  - exists k. split; [lia|done].
Qed.

Lemma refresh_all_in_range (env : environment) (i n : nat) (r : list float) :
  bus_in_range env → Forall in_range r → Forall in_range (refresh_all env i n r).
Proof.
  intros Hbus. revert i r. induction n as [|n IH]; intros i r Hr; [done|].
  rewrite refresh_all_S. apply IH. unfold refresh_one.
  destruct (r !! i) as [old|] eqn:Hold; [|done].
  apply Forall_insert; [done|].
  apply refreshed_in_range; [done|].
  by eapply (proj1 (Forall_lookup _ _) Hr).
Qed.

(** A served request on a bus in range: the reply and the readings. *)
Lemma respond_serve_in_range (env : environment) (e : error) (w : sketch) :
  (numberOfOneWireDevices w ≤ 3)%nat →
  length (temperatureReadings w) = 3%nat →
  Forall in_range (temperatureReadings w) →
  bus_in_range env →
  ∃ w' work bytes,
    respond env (true, e) w = Ok w'
    ∧ trace w' = trace w ++ work ++ [ClientWrite bytes; ClientStop]
    ∧ Forall (λ e, is_client_event e = false) work
    ∧ (length bytes ≤ 82 + 23 * numberOfOneWireDevices w)%nat
    ∧ numberOfOneWireDevices w' = numberOfOneWireDevices w
    ∧ mesh_timer w' = mesh_timer w
    ∧ length (temperatureReadings w') = 3%nat
    ∧ Forall in_range (temperatureReadings w').
Proof.
  intros HN Hlen Hr Hbus.
  set (N := numberOfOneWireDevices w) in *.
  set (final := refresh_all env 0 N (temperatureReadings w)).
  assert (Hfinal : Forall in_range final) by by apply refresh_all_in_range.
  assert (Hfits : ∀ j x, (j < N)%nat → final !! j = Some x → fits x).
  { intros j x _ Hx. apply in_range_fits.
    by eapply (proj1 (Forall_lookup _ _) Hfinal). }
  pose proof (respond_serve env e w HN Hlen Hfits) as Hresp.
  fold N final in Hresp.
  set (bytes := header_200 ++ join (lit "|") (map (entry final) (seq 0 N)) ++ CRLF)
    in *.
  set (diag := concat (map (diagnostics env) (seq 0 N))) in *.
  exists (after (set_readings final w)
            ([RequestTemperatures; responding] ++ diag
             ++ [ClientWrite bytes; ClientStop])),
         ([RequestTemperatures; responding] ++ diag), bytes.
  split; [exact Hresp|].
  split; [cbn [trace after set_readings]; by rewrite <- !(assoc_L (++))|].
  split.
  { apply Forall_app. split; [by repeat constructor|].
    unfold diag. apply Forall_concat, Forall_map, Forall_forall.
    intros j _. unfold diagnostics.
    destruct (tempSensors !! j); [|constructor].
    destruct (tempSensorNames !! j); [|constructor].
    destruct (isConnected env d); by repeat constructor. }
  split.
  { unfold bytes. rewrite !length_app.
    change (length header_200) with 80%nat. change (length CRLF) with 2%nat.
    pose proof (join_entries_length final 0 N) as Hj.
    assert ((length (join (lit "|") (map (entry final) (seq 0 N))) ≤ 23 * N)%nat).
    { apply Hj; [lia|]. intros j x Hj'. apply Hfits. lia. }
    lia. }
  cbn [numberOfOneWireDevices mesh_timer temperatureReadings after set_readings].
  repeat split; try done.
  unfold final. by rewrite refresh_all_length.
Qed.

Lemma sample_bus_in_range (request : option (list ascii)) :
  bus_in_range (sample_env request).
Proof.
  intros a. simpl. unfold sample_temperature.
  destruct (decide _); [exists 80%Z; split; [lia|by vm_compute]|].
  destruct (decide _); [exists (-16)%Z; split; [lia|by vm_compute]|].
  exists 325%Z. split; [lia|by vm_compute].
Qed.

Lemma booted_in_range (n : nat) : Forall in_range (temperatureReadings (booted n)).
Proof.
  simpl. repeat constructor; exists 0%Z; (split; [lia|by vm_compute]).
Qed.

(** X9.  With at most three devices found, and stored readings and a bus
    within the range of the sensors, a served request always gets its
    reply: one write of at most 82 + 23 N bytes (151 for three sensors,
    well inside the 400-byte buffer), then the close. *)
Theorem served_reply_fits (env : environment) (e : error) (w : sketch) :
  (numberOfOneWireDevices w ≤ 3)%nat →
  length (temperatureReadings w) = 3%nat →
  Forall in_range (temperatureReadings w) →
  bus_in_range env →
  ∃ w' work bytes,
    respond env (true, e) w = Ok w'
    ∧ trace w' = trace w ++ work ++ [ClientWrite bytes; ClientStop]
    ∧ Forall (λ e, is_client_event e = false) work
    ∧ (length bytes ≤ 82 + 23 * numberOfOneWireDevices w)%nat
    ∧ (length bytes ≤ 151)%nat.
Proof.
  intros HN Hlen Hr Hbus.
  destruct (respond_serve_in_range env e w HN Hlen Hr Hbus)
    as (w' & work & bytes & H1 & H2 & H3 & H4 & _).
  exists w', work, bytes. repeat split; try done. lia.
Qed.

Lemma served_reply_fits_witness :
  ∃ w' work bytes,
    respond (sample_env None) (true, ERR_UNKNOWN) (booted 3) = Ok w'
    ∧ trace w' = trace (booted 3) ++ work ++ [ClientWrite bytes; ClientStop]
    ∧ Forall (λ e, is_client_event e = false) work
    ∧ (length bytes ≤ 82 + 23 * numberOfOneWireDevices (booted 3))%nat
    ∧ (length bytes ≤ 151)%nat.
Proof.
  apply (served_reply_fits (sample_env None) ERR_UNKNOWN (booted 3)).
  - simpl. lia.
  - reflexivity.
  - apply booted_in_range.
  - apply sample_bus_in_range.
Defined.

(** X10.  The state "at most three devices, three stored readings, all
    within the range of the sensors" is kept by every iteration of [loop]
    on a bus in range, and such an iteration completes whenever there is
    no client or the request of the client is classified: the loop can
    go on from the state it reaches. *)
Theorem loop_in_range (env : environment) (w : sketch) :
  (numberOfOneWireDevices w ≤ 3)%nat →
  length (temperatureReadings w) = 3%nat →
  Forall in_range (temperatureReadings w) →
  bus_in_range env →
  (∀ pending, available env = Some pending →
              defined (classify (stale env) pending) = true) →
  ∃ w', loop env w = Ok w'
        ∧ (numberOfOneWireDevices w' ≤ 3)%nat
        ∧ length (temperatureReadings w') = 3%nat
        ∧ Forall in_range (temperatureReadings w').
Proof.
  intros HN Hlen Hr Hbus Hcl. unfold loop.
  set (w1 := mesh_check env w).
  assert (H1 : numberOfOneWireDevices w1 = numberOfOneWireDevices w
               ∧ temperatureReadings w1 = temperatureReadings w).
  { unfold w1, mesh_check. destruct (mesh_due env w); [|done].
    by destruct (checkConnection env). }
  destruct H1 as [HN1 HR1].
  assert (Hs : ∃ w2, match available env with
                     | Some pending => service env pending w1
                     | None => Ok w1
                     end = Ok w2
                     ∧ (numberOfOneWireDevices w2 ≤ 3)%nat
                     ∧ length (temperatureReadings w2) = 3%nat
                     ∧ Forall in_range (temperatureReadings w2)).
  { destruct (available env) as [pending|] eqn:Hav.
    - specialize (Hcl pending eq_refl).
      destruct (classify (stale env) pending) as [[[] e]|] eqn:Hc; [| |done].
      + destruct (respond_serve_in_range env e (emit ClientFlush w1))
          as (w2 & _ & _ & Hresp & _ & _ & _ & HN2 & _ & HL2 & HR2).
        { simpl. lia. } { simpl. congruence. } { simpl. congruence. } { done. }
        exists w2. unfold service. rewrite Hc, bind_Ok_l.
        split; [exact Hresp|]. simpl in HN2.
        split; [lia|]. by split.
      + eexists. rewrite (service_error _ _ _ _ Hc). split; [done|].
        simpl. split; [lia|]. split; congruence.
    - exists w1. split; [done|]. split; [lia|]. split; congruence. }
  destruct Hs as (w2 & -> & HN2 & HL2 & HR2). rewrite bind_Ok_l.
  eexists. split; [done|].
  by destruct (failureDetected env).
Qed.

Lemma loop_in_range_witness :
  ∃ w', loop (sample_env (Some get_temp)) (booted 3) = Ok w'
        ∧ (numberOfOneWireDevices w' ≤ 3)%nat
        ∧ length (temperatureReadings w') = 3%nat
        ∧ Forall in_range (temperatureReadings w').
Proof.
  apply (loop_in_range (sample_env (Some get_temp)) (booted 3)).
  - simpl. lia.
  - reflexivity.
  - apply booted_in_range.
  - apply sample_bus_in_range.
  - intros pending [= <-]. vm_compute. reflexivity.
Defined.

(** ** [printAddress] *)

Lemma serial_text_app (t1 t2 : list event) :
  serial_text (t1 ++ t2) = serial_text t1 ++ serial_text t2.
Proof. unfold serial_text. by rewrite fmap_app, concat_app. Qed.

Lemma byte_text_digits (b : Z) :
  is_byte b →
  ∃ h l, byte_text b = [h; l]
         ∧ hex_value h = Some (b / 16)%Z ∧ hex_value l = Some (b mod 16)%Z.
Proof.
  intros Hb.
  assert (Hall : forallb (λ b, match byte_text b with
                               | [h; l] =>
                                   bool_decide (hex_value h = Some (b / 16)%Z
                                                ∧ hex_value l = Some (b mod 16)%Z)
                               | _ => false
                               end) (seqZ 0 256) = true)
    by (vm_compute; reflexivity).
  rewrite forallb_forall in Hall. specialize (Hall b).
  destruct (byte_text b) as [|h [|l [|]]];
    try (discriminate Hall; apply list_elem_of_In, elem_of_seqZ;
         unfold is_byte in Hb; lia).
  exists h, l. split; [done|].
  rewrite bool_decide_eq_true in Hall. apply Hall.
  apply list_elem_of_In, elem_of_seqZ. unfold is_byte in Hb. lia.
Qed.

Lemma printAddress_from_text (a : DeviceAddress) (n i : nat) (evs : list event) :
  (i + n ≤ length a)%nat →
  ∃ more, printAddress_from a n i evs = Ok (evs ++ more)
          ∧ Forall (λ e, is_serial e = true) more
          ∧ serial_text more = concat (byte_text <$> take n (drop i a)).
Proof.
  revert i evs. induction n as [|n IH]; intros i evs Hi.
  - exists []. by rewrite (right_id_L [] (++)).
  - destruct (lookup_lt_is_Some_2 a i) as [b Hb]; [lia|].
    cbn [printAddress_from]. unfold index. rewrite Hb, bind_Ok_l.
    rewrite (drop_S _ _ _ Hb). cbn [take fmap list_fmap concat].
    unfold byte_text at 1.
    destruct (b <? 16)%Z.
    + destruct (IH (S i) ((evs ++ [SerialPrint (lit "0")])
                          ++ [SerialPrint (printNumber b HEX)]))
        as (more & -> & Hs & Ht); [lia|].
      exists ([SerialPrint (lit "0"); SerialPrint (printNumber b HEX)] ++ more).
      rewrite <- !(assoc_L (++)). split; [done|]. split.
      * apply Forall_app. split; [by repeat constructor|done].
      * rewrite serial_text_app, Ht. unfold serial_text at 1.
        cbn [fmap list_fmap concat]. by rewrite <- !(assoc_L (++)).
    + destruct (IH (S i) (evs ++ [SerialPrint (printNumber b HEX)]))
        as (more & -> & Hs & Ht); [lia|].
      exists ([SerialPrint (printNumber b HEX)] ++ more).
      rewrite <- !(assoc_L (++)). split; [done|]. split.
      * apply Forall_app. split; [by repeat constructor|done].
      * rewrite serial_text_app, Ht. unfold serial_text at 1.
        cbn [fmap list_fmap concat]. by rewrite <- !(assoc_L (++)).
Qed.

Lemma parse_hex_bytes_text (l : list Z) :
  Forall is_byte l →
  parse_hex_bytes (concat (byte_text <$> l)) = Some l
  ∧ length (concat (byte_text <$> l)) = (2 * length l)%nat.
Proof.
  induction 1 as [|b l Hb _ [IH1 IH2]]; [done|].
  destruct (byte_text_digits b Hb) as (h & lo & Hbt & Hh & Hl).
  cbn [fmap list_fmap concat]. rewrite Hbt.
  cbn [app parse_hex_bytes length]. rewrite Hh, Hl, IH1, IH2. split.
  - do 2 f_equal. pose proof (Z.div_mod b 16). lia.
  - lia.
Qed.

(** X11.  For an address of 8 bytes, [printAddress] prints 16 characters,
    two upper-case hexadecimal digits per byte with the leading zero put
    in, so that reading the digits back gives the address. *)
Theorem printAddress_round_trip (deviceAddress : DeviceAddress) :
  length deviceAddress = 8%nat →
  Forall is_byte deviceAddress →
  ∃ evs, printAddress deviceAddress = Ok evs
         ∧ Forall (λ e, is_serial e = true) evs
         ∧ length (serial_text evs) = 16%nat
         ∧ parse_hex_bytes (serial_text evs) = Some deviceAddress.
Proof.
  intros Hlen Hbytes. unfold printAddress.
  destruct (printAddress_from_text deviceAddress 8 0 []) as (evs & -> & Hs & Ht);
    [lia|].
  exists evs. split; [done|]. split; [done|].
  rewrite Ht, drop_0, take_ge by lia.
  destruct (parse_hex_bytes_text deviceAddress Hbytes) as [H1 H2].
  split; [lia|done].
Qed.

Lemma printAddress_round_trip_witness :
  ∃ evs, printAddress [0x28; 0xFF; 0xDD; 0x96; 0x36; 0x16; 0x03; 0xB9]%Z = Ok evs
         ∧ Forall (λ e, is_serial e = true) evs
         ∧ length (serial_text evs) = 16%nat
         ∧ parse_hex_bytes (serial_text evs)
           = Some [0x28; 0xFF; 0xDD; 0x96; 0x36; 0x16; 0x03; 0xB9]%Z.
Proof.
  apply (printAddress_round_trip
           [0x28; 0xFF; 0xDD; 0x96; 0x36; 0x16; 0x03; 0xB9]%Z).
  - reflexivity.
  - repeat constructor; unfold is_byte; lia.
Defined.

(** ** [setup] *)

Lemma omap_resolution_sketch (evs : list event) :
  omap resolution_set (Sketch <$> evs) = [].
Proof. induction evs as [|e evs IH]; [done|]. simpl. exact IH. Qed.

Lemma Forall_device_sketch (evs : list event) :
  Forall (λ e, is_serial e = true) evs →
  Forall (λ b, device_event b = true) (Sketch <$> evs).
Proof. induction 1; constructor; done. Qed.

Lemma device_loop_events (benv : boot_environment) (n i : nat)
  (tr : list boot_event) :
  (∀ j a, (i ≤ j < i + n)%nat → getAddress benv j = Some a → length a = 8%nat) →
  ∃ evs, device_loop benv n i tr = Ok (tr ++ evs)
         ∧ Forall (λ b, device_event b = true) evs
         ∧ omap resolution_set evs
           = (λ a, (a, TEMPERATURE_PRECISION)) <$> omap (getAddress benv) (seq i n).
Proof.
  revert i tr. induction n as [|n IH]; intros i tr Hlen.
  - exists []. by rewrite (right_id_L [] (++)).
  - cbn [device_loop seq omap list_omap].
    destruct (getAddress benv i) as [a|] eqn:Ha.
    + destruct (printAddress_from_text a 8 0 []) as (pevs & Hp & Hs & _).
      { rewrite (Hlen i a); [lia|lia|done]. }
      unfold printAddress. rewrite Hp, bind_Ok_l. cbv beta zeta.
      set (complaint := if negb (getResolution benv a =? TEMPERATURE_PRECISION)%Z
                        then [say "Error in setting temp precision; requested";
                              say_number TEMPERATURE_PRECISION DEC;
                              say " but received ";
                              sayln_number (getResolution benv a) DEC]
                        else []).
      set (mine := [say "Found device "; say_number (Z.of_nat i) DEC;
                    say " with address: "]
                   ++ (Sketch <$> ([] ++ pevs)) ++ [Sketch (SerialPrintln [])]
                   ++ [SetResolution a TEMPERATURE_PRECISION] ++ complaint).
      destruct (IH (S i) (tr ++ mine)) as (evs & Hd & Hdev & Hres).
      { intros j b Hj. apply Hlen. lia. }
      exists (mine ++ evs). split; [|split].
      * match goal with
        | |- device_loop _ _ _ ?x = _ => replace x with (tr ++ mine)
        end.
        { by rewrite Hd, (assoc_L (++)). }
        unfold mine, complaint.
        destruct (negb _);
          by rewrite <- ?(assoc_L (++)), ?(right_id_L [] (++)).
      * apply Forall_app. split; [|done]. unfold mine.
        apply Forall_app. split; [by repeat constructor|].
        apply Forall_app. split; [by apply Forall_device_sketch|].
        apply Forall_cons. split; [done|].
        apply Forall_cons. split; [done|].
        unfold complaint. destruct (negb _); by repeat constructor.
      * rewrite omap_app, Hres. unfold mine.
        rewrite !omap_app, omap_resolution_sketch.
        unfold complaint. by destruct (negb _).
    + set (mine := [say "Found ghost device at "; say_number (Z.of_nat i) DEC;
                    sayln " but could not detect address. Check power and cabling"]).
      destruct (IH (S i) (tr ++ mine)) as (evs & Hd & Hdev & Hres).
      { intros j b Hj. apply Hlen. lia. }
      exists (mine ++ evs). split; [|split].
      * fold mine. by rewrite Hd, (assoc_L (++)).
      * apply Forall_app. split; [by repeat constructor|done].
      * by rewrite omap_app, Hres.
Qed.

Lemma setup_radio_ok (benv : boot_environment) :
  mesh_begin benv = true →
  addresses_whole benv (getDeviceCount benv) →
  ∃ evs, setup benv
         = Ok (boot_prefix (getDeviceCount benv) ++ evs ++ [WdtEnable WDTO_8S],
               Some (booted (getDeviceCount benv)))
         ∧ Forall (λ b, device_event b = true) evs
         ∧ omap resolution_set evs
           = (λ a, (a, TEMPERATURE_PRECISION))
             <$> omap (getAddress benv) (seq 0 (getDeviceCount benv)).
Proof.
  intros Hmesh Hwhole. unfold setup, setup_sensors. rewrite Hmesh.
  cbn [negb].
  destruct (device_loop_events benv (getDeviceCount benv) 0
              (boot_prefix (getDeviceCount benv)))
    as (evs & Hd & Hdev & Hres).
  { intros j a Hj. apply Hwhole. lia. }
  exists evs. split; [|done].
  unfold boot_prefix in Hd |- *. cbn [app] in Hd |- *.
  rewrite Hd, bind_Ok_l. reflexivity.
Qed.

Lemma device_events_no_enable (evs : list boot_event) :
  Forall (λ b, device_event b = true) evs →
  filter (λ b, is_wdt_enable b = true) evs = []
  ∧ ∀ level, led_level level (sketch_events evs) = level.
Proof.
  induction 1 as [|b evs Hb _ [IH1 IH2]]; [done|]. split.
  - rewrite filter_cons. case_decide; [by destruct b|done].
  - intros level. destruct b as [| | | | | | | | | | | |e]; try done.
    destruct e; try done; apply IH2.
Qed.

Lemma sketch_events_app (t1 t2 : list boot_event) :
  sketch_events (t1 ++ t2) = sketch_events t1 ++ sketch_events t2.
Proof. apply omap_app. Qed.

(** X13.  When the radio starts and the bus reports whole addresses,
    [setup] returns.  It disables the watchdog first and arms it once, at
    8 s, as its last action; the LED is on; the device count is whatever
    the bus reported, and the three readings are 0.0. *)
Theorem setup_completes (benv : boot_environment) :
  mesh_begin benv = true →
  addresses_whole benv (getDeviceCount benv) →
  ∃ tr w,
    setup benv = Ok (tr, Some w)
    ∧ head tr = Some WdtDisable
    ∧ last tr = Some (WdtEnable WDTO_8S)
    ∧ filter (λ b, is_wdt_enable b = true) tr = [WdtEnable WDTO_8S]
    ∧ led_level false (sketch_events tr) = true
    ∧ numberOfOneWireDevices w = getDeviceCount benv
    ∧ temperatureReadings w = replicate 3 (sixteenths 0)
    ∧ mesh_timer w = 0%Z.
Proof.
  intros Hmesh Hwhole.
  destruct (setup_radio_ok benv Hmesh Hwhole) as (evs & -> & Hdev & _).
  destruct (device_events_no_enable evs Hdev) as [Hf Hled].
  eexists _, _. split; [reflexivity|].
  split; [reflexivity|].
  split; [by rewrite !(assoc_L (++)), last_snoc|].
  split; [by rewrite !filter_app, Hf|].
  split; [|done].
  rewrite !sketch_events_app, !led_level_app, Hled. reflexivity.
Qed.

Lemma setup_completes_witness :
  ∃ tr w,
    setup (sample_boot true 2) = Ok (tr, Some w)
    ∧ head tr = Some WdtDisable
    ∧ last tr = Some (WdtEnable WDTO_8S)
    ∧ filter (λ b, is_wdt_enable b = true) tr = [WdtEnable WDTO_8S]
    ∧ led_level false (sketch_events tr) = true
    ∧ numberOfOneWireDevices w = getDeviceCount (sample_boot true 2)
    ∧ temperatureReadings w = replicate 3 (sixteenths 0)
    ∧ mesh_timer w = 0%Z.
Proof.
  apply (setup_completes (sample_boot true 2)); [reflexivity|].
  intros [|[|i]] a Hi; [| |simpl in Hi; lia]; intros [= <-]; reflexivity.
Defined.

(** X14.  A [setup] that returns has set the resolution to 12 bits once
    for every device index below the count whose address the bus could
    give, in the order of the indices, and for nothing else. *)
Theorem setup_sets_resolution (benv : boot_environment) :
  mesh_begin benv = true →
  addresses_whole benv (getDeviceCount benv) →
  ∃ tr w,
    setup benv = Ok (tr, Some w)
    ∧ omap resolution_set tr
      = (λ a, (a, 12%Z)) <$> omap (getAddress benv) (seq 0 (getDeviceCount benv)).
Proof.
  intros Hmesh Hwhole.
  destruct (setup_radio_ok benv Hmesh Hwhole) as (evs & -> & _ & Hres).
  eexists _, _. split; [reflexivity|].
  rewrite !omap_app, Hres.
  assert (omap resolution_set (boot_prefix (getDeviceCount benv)) = []) as ->
    by reflexivity.
  cbn [omap list_omap resolution_set app]. by rewrite (right_id_L [] (++)).
Qed.

Lemma setup_sets_resolution_witness :
  ∃ tr w,
    setup (sample_boot true 4) = Ok (tr, Some w)
    ∧ omap resolution_set tr
      = (λ a, (a, 12%Z))
        <$> omap (getAddress (sample_boot true 4))
              (seq 0 (getDeviceCount (sample_boot true 4))).
Proof.
  apply (setup_sets_resolution (sample_boot true 4)); [reflexivity|].
  intros [|[|[|i]]] a Hi; intros [= <-]; reflexivity.
Defined.

(** X15.  [setup] takes the device count as the bus reports it, without
    comparing it to the three known sensors: with a fourth device on the
    bus it returns as usual, and from then on every iteration of [loop]
    whose request is classified Serve is undefined. *)
Theorem fourth_device_breaks_serving (benv : boot_environment) :
  mesh_begin benv = true →
  addresses_whole benv (getDeviceCount benv) →
  (3 < getDeviceCount benv)%nat →
  ∃ tr w,
    setup benv = Ok (tr, Some w)
    ∧ numberOfOneWireDevices w = getDeviceCount benv
    ∧ ∀ env pending e,
        available env = Some pending →
        classify (stale env) pending = Ok (true, e) →
        defined (loop env w) = false.
Proof.
  intros Hmesh Hwhole Hfour.
  destruct (setup_radio_ok benv Hmesh Hwhole) as (evs & -> & _ & _).
  eexists _, _. split; [reflexivity|]. split; [reflexivity|].
  intros env pending e Hav Hc. by eapply loop_beyond_tables.
Qed.

Lemma fourth_device_breaks_serving_witness :
  ∃ tr w,
    setup (sample_boot true 4) = Ok (tr, Some w)
    ∧ numberOfOneWireDevices w = 4%nat
    ∧ defined (loop (sample_env (Some get_temp)) w) = false.
Proof.
  destruct (fourth_device_breaks_serving (sample_boot true 4))
    as (tr & w & Hs & HN & Hl).
  - reflexivity.
  - intros [|[|[|i]]] a Hi; intros [= <-]; reflexivity.
  - simpl. lia.
  - exists tr, w. split; [exact Hs|]. split; [exact HN|].
    apply (Hl (sample_env (Some get_temp)) get_temp ERR_UNKNOWN); [reflexivity|].
    vm_compute. reflexivity.
Defined.

(** ** The 10 bytes of [fltStr] *)

(** X16.  Among the readings a sensor register can hold (12 bits with
    sign, in sixteenths of a degree: -128 to 127.9375 degrees), the text
    [dtostrf] writes fits the 10 bytes of [fltStr] exactly for those above
    -100 degrees; this includes the range of the sensors, -55 to 125, with
    or without the correction of sensor 2, and excludes -127, the reading
    reported for a device that is gone. *)
Theorem fltStr_holds (k : Z) :
  (-2048 ≤ k ≤ 2047)%Z →
  (dtostrf (sixteenths k) = Ok (dtostrf5 (sixteenths k)) ↔ (-1600 < k)%Z)
  ∧ ((k ≤ -1600)%Z → dtostrf (sixteenths k) = Undefined OutOfBounds).
Proof.
  intros Hk.
  assert (Hall : forallb (λ k, bool_decide
                     (defined (dtostrf (sixteenths k)) = (-1600 <? k)%Z))
                   (seqZ (-2048) 4096) = true) by (vm_compute; reflexivity).
  rewrite forallb_forall in Hall. specialize (Hall k).
  rewrite bool_decide_eq_true in Hall.
  assert (Hd : defined (dtostrf (sixteenths k)) = (-1600 <? k)%Z).
  { apply Hall, list_elem_of_In, elem_of_seqZ. lia. }
  clear Hall. unfold dtostrf in *.
  destruct (Z.of_nat (length (dtostrf5 (sixteenths k))) <? FLTSTR_SIZE)%Z;
    simpl in Hd; symmetry in Hd.
  - apply Z.ltb_lt in Hd. split; [split; [lia|done]|lia].
  - apply Z.ltb_ge in Hd. split; [split; [done|lia]|done].
Qed.

Lemma fltStr_holds_witness :
  dtostrf (sixteenths (-2032)) = Undefined OutOfBounds.
Proof.
  apply (fltStr_holds (-2032)); lia.
Defined.
